(** * Tug-o-Chat: the game-state engine

    A shallow embedding of [backend/models.py], [backend/config.py],
    [backend/game_manager.py] and [backend/matchmaking.py].

    Conventions of the embedding
    - Python [str] is [string], [int] is [Z], [Optional[T]] is [option T].
    - Python [float] is idealised as a real number ([R]); rounding,
      infinities and NaN are not modelled.  [math.log10] is the real
      base-10 logarithm.  The one place where rounding decides what holds,
      the growth of the pull power with the number of unique pullers, is
      modelled a second time with the binary64 rounding written out
      ([engagement64], [pull_power64]).
    - [datetime] is the number of microseconds since the epoch ([Z]),
      a [timedelta] a number of microseconds; [datetime.now()] is an
      explicit argument [now] of every operation that reads the clock.
    - A [dict] is a [gmap]; reading a missing key raises [KeyError].
    - A coroutine is cut at its [await] points into atomic pieces; the
      event loop may run any other piece in between. *)

From Stdlib Require Import ZArith Reals Lra Lia.
From stdpp Require Import base option list strings gmap.

(** ** Exceptions *)

Inductive exn := KeyError | IndexError.

Inductive result (A : Type) : Type :=
| Ok (a : A)
| Raise (e : exn).
Arguments Ok {A} a.
Arguments Raise {A} e.

Global Instance result_ret : MRet result := λ A a, Ok a.

Global Instance result_bind : MBind result := λ A B k r,
  match r with
  | Ok a => k a
  | Raise e => Raise e
  end.

(** [d[k]] *)
Definition getitem {K V} `{Countable K} (d : gmap K V) (k : K) : result V :=
  match d !! k with
  | Some v => Ok v
  | None => Raise KeyError
  end.

(** [del d[k]] *)
Definition delitem {K V} `{Countable K} (d : gmap K V) (k : K)
  : result (gmap K V) :=
  match d !! k with
  | Some _ => Ok (delete k d)
  | None => Raise KeyError
  end.

(** [k in d] *)
Definition contains {K V} `{Countable K} (d : gmap K V) (k : K) : bool :=
  bool_decide (is_Some (d !! k)).

(** [l.pop(0)] *)
Definition pop0 {A} (l : list A) : result (A * list A) :=
  match l with
  | [] => Raise IndexError
  | x :: l' => Ok (x, l')
  end.

(** ** models.py *)

Inductive GameStatus := WAITING | ACTIVE | FINISHED | ABANDONED.

Global Instance GameStatus_eq_dec : EqDecision GameStatus.
Proof. solve_decision. Defined.

Module Player.
Record t := mk {
  id : string;
  username : string;
  channel_name : string;
  access_token : string;
  viewer_count : Z;
  session_id : option string
}.
End Player.

Module PullData.
Record t := mk {
  timestamp : Z;
  username : string;
  player_id : string
}.
End PullData.

Module GameRoom.
Record t := mk {
  id : string;
  player1 : Player.t;
  player2 : Player.t;
  status : GameStatus;
  rope_position : R;
  start_time : option Z;
  end_time : option Z;
  winner_id : option string;
  pull_history : list PullData.t;
  player1_stats : gmap string R;
  player2_stats : gmap string R
}.
End GameRoom.

Module QueuePlayer.
Record t := mk {
  player : Player.t;
  joined_at : Z;
  session_id : string
}.
End QueuePlayer.

(** ** config.py (the game settings) *)

Module Settings.
Record t := mk {
  game_duration : Z;
  base_pull_strength : R;
  win_threshold : R
}.
End Settings.

Definition default_settings : Settings.t :=
  {| Settings.game_duration := 120;
     Settings.base_pull_strength := 1;
     Settings.win_threshold := 100 |}.

(** ** game_manager.py *)

Module GameManager.
Record t := mk {
  rooms : gmap string GameRoom.t;
  session_to_room : gmap (option string) string
}.
End GameManager.

(** [GameManager.__init__] *)
Definition init : GameManager.t :=
  {| GameManager.rooms := ∅; GameManager.session_to_room := ∅ |}.

(** Work left on the event loop by a call: [asyncio.create_task(...)]. *)
Inductive Task := EndGameTask (room_id : string).

(** Attribute assignments on a room object. *)
Definition set_status (s : GameStatus) (r : GameRoom.t) : GameRoom.t :=
  {| GameRoom.id := GameRoom.id r;
     GameRoom.player1 := GameRoom.player1 r;
     GameRoom.player2 := GameRoom.player2 r;
     GameRoom.status := s;
     GameRoom.rope_position := GameRoom.rope_position r;
     GameRoom.start_time := GameRoom.start_time r;
     GameRoom.end_time := GameRoom.end_time r;
     GameRoom.winner_id := GameRoom.winner_id r;
     GameRoom.pull_history := GameRoom.pull_history r;
     GameRoom.player1_stats := GameRoom.player1_stats r;
     GameRoom.player2_stats := GameRoom.player2_stats r |}.

Definition set_rope_position (x : R) (r : GameRoom.t) : GameRoom.t :=
  {| GameRoom.id := GameRoom.id r;
     GameRoom.player1 := GameRoom.player1 r;
     GameRoom.player2 := GameRoom.player2 r;
     GameRoom.status := GameRoom.status r;
     GameRoom.rope_position := x;
     GameRoom.start_time := GameRoom.start_time r;
     GameRoom.end_time := GameRoom.end_time r;
     GameRoom.winner_id := GameRoom.winner_id r;
     GameRoom.pull_history := GameRoom.pull_history r;
     GameRoom.player1_stats := GameRoom.player1_stats r;
     GameRoom.player2_stats := GameRoom.player2_stats r |}.

Definition set_start_time (t : option Z) (r : GameRoom.t) : GameRoom.t :=
  {| GameRoom.id := GameRoom.id r;
     GameRoom.player1 := GameRoom.player1 r;
     GameRoom.player2 := GameRoom.player2 r;
     GameRoom.status := GameRoom.status r;
     GameRoom.rope_position := GameRoom.rope_position r;
     GameRoom.start_time := t;
     GameRoom.end_time := GameRoom.end_time r;
     GameRoom.winner_id := GameRoom.winner_id r;
     GameRoom.pull_history := GameRoom.pull_history r;
     GameRoom.player1_stats := GameRoom.player1_stats r;
     GameRoom.player2_stats := GameRoom.player2_stats r |}.

Definition set_end_time (t : option Z) (r : GameRoom.t) : GameRoom.t :=
  {| GameRoom.id := GameRoom.id r;
     GameRoom.player1 := GameRoom.player1 r;
     GameRoom.player2 := GameRoom.player2 r;
     GameRoom.status := GameRoom.status r;
     GameRoom.rope_position := GameRoom.rope_position r;
     GameRoom.start_time := GameRoom.start_time r;
     GameRoom.end_time := t;
     GameRoom.winner_id := GameRoom.winner_id r;
     GameRoom.pull_history := GameRoom.pull_history r;
     GameRoom.player1_stats := GameRoom.player1_stats r;
     GameRoom.player2_stats := GameRoom.player2_stats r |}.

Definition set_winner_id (w : option string) (r : GameRoom.t) : GameRoom.t :=
  {| GameRoom.id := GameRoom.id r;
     GameRoom.player1 := GameRoom.player1 r;
     GameRoom.player2 := GameRoom.player2 r;
     GameRoom.status := GameRoom.status r;
     GameRoom.rope_position := GameRoom.rope_position r;
     GameRoom.start_time := GameRoom.start_time r;
     GameRoom.end_time := GameRoom.end_time r;
     GameRoom.winner_id := w;
     GameRoom.pull_history := GameRoom.pull_history r;
     GameRoom.player1_stats := GameRoom.player1_stats r;
     GameRoom.player2_stats := GameRoom.player2_stats r |}.

Definition set_pull_history (h : list PullData.t) (r : GameRoom.t)
  : GameRoom.t :=
  {| GameRoom.id := GameRoom.id r;
     GameRoom.player1 := GameRoom.player1 r;
     GameRoom.player2 := GameRoom.player2 r;
     GameRoom.status := GameRoom.status r;
     GameRoom.rope_position := GameRoom.rope_position r;
     GameRoom.start_time := GameRoom.start_time r;
     GameRoom.end_time := GameRoom.end_time r;
     GameRoom.winner_id := GameRoom.winner_id r;
     GameRoom.pull_history := h;
     GameRoom.player1_stats := GameRoom.player1_stats r;
     GameRoom.player2_stats := GameRoom.player2_stats r |}.

Definition set_player1_stats (d : gmap string R) (r : GameRoom.t)
  : GameRoom.t :=
  {| GameRoom.id := GameRoom.id r;
     GameRoom.player1 := GameRoom.player1 r;
     GameRoom.player2 := GameRoom.player2 r;
     GameRoom.status := GameRoom.status r;
     GameRoom.rope_position := GameRoom.rope_position r;
     GameRoom.start_time := GameRoom.start_time r;
     GameRoom.end_time := GameRoom.end_time r;
     GameRoom.winner_id := GameRoom.winner_id r;
     GameRoom.pull_history := GameRoom.pull_history r;
     GameRoom.player1_stats := d;
     GameRoom.player2_stats := GameRoom.player2_stats r |}.

Definition set_player2_stats (d : gmap string R) (r : GameRoom.t)
  : GameRoom.t :=
  {| GameRoom.id := GameRoom.id r;
     GameRoom.player1 := GameRoom.player1 r;
     GameRoom.player2 := GameRoom.player2 r;
     GameRoom.status := GameRoom.status r;
     GameRoom.rope_position := GameRoom.rope_position r;
     GameRoom.start_time := GameRoom.start_time r;
     GameRoom.end_time := GameRoom.end_time r;
     GameRoom.winner_id := GameRoom.winner_id r;
     GameRoom.pull_history := GameRoom.pull_history r;
     GameRoom.player1_stats := GameRoom.player1_stats r;
     GameRoom.player2_stats := d |}.

(** The room objects live in [rooms]; a mutation of the object bound to
    [room_id] is a write back under that key. *)
Definition put_room (room_id : string) (r : GameRoom.t) (gm : GameManager.t)
  : GameManager.t :=
  {| GameManager.rooms := <[room_id := r]> (GameManager.rooms gm);
     GameManager.session_to_room := GameManager.session_to_room gm |}.

(** [create_room]; [new_id] is the value of [str(uuid.uuid4())] drawn by
    [GameRoom.__init__] for the empty [id]. *)
Definition create_room (new_id : string) (player1 player2 : Player.t)
    (gm : GameManager.t) : GameManager.t * GameRoom.t :=
  let room :=
    {| GameRoom.id := new_id;
       GameRoom.player1 := player1;
       GameRoom.player2 := player2;
       GameRoom.status := WAITING;
       GameRoom.rope_position := 0;
       GameRoom.start_time := None;
       GameRoom.end_time := None;
       GameRoom.winner_id := None;
       GameRoom.pull_history := [];
       GameRoom.player1_stats := ∅;
       GameRoom.player2_stats := ∅ |} in
  ({| GameManager.rooms := <[GameRoom.id room := room]> (GameManager.rooms gm);
      GameManager.session_to_room :=
        <[Player.session_id player2 := GameRoom.id room]>
          (<[Player.session_id player1 := GameRoom.id room]>
             (GameManager.session_to_room gm)) |},
   room).

Definition get_room (gm : GameManager.t) (room_id : string)
  : option GameRoom.t :=
  GameManager.rooms gm !! room_id.

(** The stats dictionary written by [start_game]. *)
Definition initial_stats : gmap string R :=
  <["pull_power" := 0%R]>
    (<["engagement_rate" := 0%R]>
       (<["unique_pullers" := 0%R]>
          (<["total_pulls" := 0%R]> ∅))).

Definition start_game (now : Z) (room_id : string) (gm : GameManager.t)
  : GameManager.t :=
  match get_room gm room_id with
  | None => gm
  | Some room =>
      if decide (GameRoom.status room ≠ WAITING) then gm
      else
        let room := set_status ACTIVE room in
        let room := set_start_time (Some now) room in
        let room := set_rope_position 0 room in
        let room := set_player1_stats initial_stats room in
        let room := set_player2_stats (GameRoom.player1_stats room) room in
        put_room room_id room gm
  end.

Definition register_pull (now : Z) (room_id player_id username : string)
    (gm : GameManager.t) : result GameManager.t :=
  match get_room gm room_id with
  | None => Ok gm
  | Some room =>
      if decide (GameRoom.status room ≠ ACTIVE) then Ok gm
      else
        let pull :=
          {| PullData.timestamp := now;
             PullData.username := username;
             PullData.player_id := player_id |} in
        let room :=
          set_pull_history (GameRoom.pull_history room ++ [pull]) room in
        if decide (player_id = Player.id (GameRoom.player1 room)) then
          n ← getitem (GameRoom.player1_stats room) "total_pulls";
          Ok (put_room room_id
                (set_player1_stats
                   (<["total_pulls" := (n + 1)%R]>
                      (GameRoom.player1_stats room)) room) gm)
        else
          n ← getitem (GameRoom.player2_stats room) "total_pulls";
          Ok (put_room room_id
                (set_player2_stats
                   (<["total_pulls" := (n + 1)%R]>
                      (GameRoom.player2_stats room)) room) gm)
  end.

(** Built-in [max] and [min] on two floats: the first argument is kept
    unless the second is strictly better. *)
Definition py_max (a b : R) : R := if Rlt_dec a b then b else a.
Definition py_min (a b : R) : R := if Rlt_dec b a then b else a.

(** [math.log10]; the engine only calls it on arguments of at least 1. *)
Definition log10 (x : R) : R := (ln x / ln 10)%R.

(** [timedelta(seconds=30)] *)
Definition window : Z := 30 * 1000000.

(** [timedelta.total_seconds()] *)
Definition total_seconds (d : Z) : R := (IZR d / 1000000)%R.

(** [[p for p in room.pull_history if now - p.timestamp < window]] *)
Definition recent_pulls (now : Z) (room : GameRoom.t) : list PullData.t :=
  filter (λ p, now - PullData.timestamp p < window)%Z
         (GameRoom.pull_history room).

(** [[p for p in recent_pulls if p.player_id == player.id]] *)
Definition pulls_of (player : Player.t) (pulls : list PullData.t)
  : list PullData.t :=
  filter (λ p, PullData.player_id p = Player.id player) pulls.

(** [len(set(p.username for p in pulls))] *)
Definition unique_pullers (pulls : list PullData.t) : nat :=
  size (list_to_set (PullData.username <$> pulls) : gset string).

(** [unique / max(player.viewer_count, 1)] *)
Definition engagement (unique : nat) (player : Player.t) : R :=
  (INR unique / IZR (Z.max (Player.viewer_count player) 1))%R.

(** [engagement * base_power * math.log10(unique + 1)] *)
Definition pull_power (engagement base_power : R) (unique : nat) : R :=
  (engagement * base_power * log10 (INR (unique + 1)))%R.

Section Engine.
Variable settings : Settings.t.

Definition calculate_engagement_stats (now : Z) (room : GameRoom.t)
  : GameRoom.t :=
  let recent := recent_pulls now room in
  let p1_unique := unique_pullers (pulls_of (GameRoom.player1 room) recent) in
  let p1_engagement := engagement p1_unique (GameRoom.player1 room) in
  let p2_unique := unique_pullers (pulls_of (GameRoom.player2 room) recent) in
  let p2_engagement := engagement p2_unique (GameRoom.player2 room) in
  let base_power := Settings.base_pull_strength settings in
  let stats1 :=
    <["pull_power" := pull_power p1_engagement base_power p1_unique]>
      (<["engagement_rate" := p1_engagement]>
         (<["unique_pullers" := INR p1_unique]>
            (GameRoom.player1_stats room))) in
  let stats2 :=
    <["pull_power" := pull_power p2_engagement base_power p2_unique]>
      (<["engagement_rate" := p2_engagement]>
         (<["unique_pullers" := INR p2_unique]>
            (GameRoom.player2_stats room))) in
  set_player2_stats stats2 (set_player1_stats stats1 room).

(** Returns the updated room and the [end_game] task it scheduled, if
    any. *)
Definition update_rope_position (now : Z) (room : GameRoom.t)
  : result (GameRoom.t * list Task) :=
  if decide (GameRoom.status room ≠ ACTIVE) then Ok (room, [])
  else
    let room := calculate_engagement_stats now room in
    p1_power ← getitem (GameRoom.player1_stats room) "pull_power";
    p2_power ← getitem (GameRoom.player2_stats room) "pull_power";
    let net_force := (p1_power - p2_power)%R in
    let room :=
      set_rope_position
        (GameRoom.rope_position room + net_force * (5 / 10))%R room in
    let room :=
      set_rope_position
        (py_max (- Settings.win_threshold settings)
                (py_min (Settings.win_threshold settings)
                        (GameRoom.rope_position room))) room in
    if Rge_dec (Rabs (GameRoom.rope_position room))
               (Settings.win_threshold settings)
    then Ok (room, [EndGameTask (GameRoom.id room)])
    else Ok (room, []).

(** The winner chosen by [end_game]. *)
Definition determine_winner (room : GameRoom.t) : GameRoom.t :=
  if Rle_dec (GameRoom.rope_position room)
             (- Settings.win_threshold settings)
  then set_winner_id (Some (Player.id (GameRoom.player2 room))) room
  else if Rge_dec (GameRoom.rope_position room)
                  (Settings.win_threshold settings)
  then set_winner_id (Some (Player.id (GameRoom.player1 room))) room
  else room.

(** [end_game] up to its [await asyncio.sleep(30)]; the rest of the
    coroutine is [cleanup_room room_id]. *)
Definition end_game (now : Z) (room_id : string) (gm : GameManager.t)
  : GameManager.t :=
  match get_room gm room_id with
  | None => gm
  | Some room =>
      let room := set_status FINISHED room in
      let room := set_end_time (Some now) room in
      let room := determine_winner room in
      put_room room_id room gm
  end.

Definition cleanup_room (room_id : string) (gm : GameManager.t)
  : result GameManager.t :=
  let sessions := GameManager.session_to_room gm in
  sessions ←
    match get_room gm room_id with
    | Some room =>
        let s1 := Player.session_id (GameRoom.player1 room) in
        let s2 := Player.session_id (GameRoom.player2 room) in
        sessions ← (if contains sessions s1 then delitem sessions s1
                    else Ok sessions);
        if contains sessions s2 then delitem sessions s2 else Ok sessions
    | None => Ok sessions
    end;
  rooms ← (if contains (GameManager.rooms gm) room_id
           then delitem (GameManager.rooms gm) room_id
           else Ok (GameManager.rooms gm));
  Ok {| GameManager.rooms := rooms;
        GameManager.session_to_room := sessions |}.

(** The [if room.status == GameStatus.ACTIVE] block of
    [handle_player_disconnect]. *)
Definition forfeit (session_id : string) (room : GameRoom.t) : GameRoom.t :=
  if decide (GameRoom.status room = ACTIVE) then
    let room := set_status ABANDONED room in
    if decide (Player.session_id (GameRoom.player1 room) = Some session_id)
    then set_winner_id (Some (Player.id (GameRoom.player2 room))) room
    else set_winner_id (Some (Player.id (GameRoom.player1 room))) room
  else room.

(** [handle_player_disconnect] up to the [sleep] inside the [end_game] it
    awaits; the rest of the coroutine is [cleanup_room room_id]. *)
Definition handle_player_disconnect (now : Z) (room_id session_id : string)
    (gm : GameManager.t) : GameManager.t :=
  match get_room gm room_id with
  | None => gm
  | Some room =>
      end_game now room_id (put_room room_id (forfeit session_id room) gm)
  end.

(** The body of the [for room in active_rooms] loop of [game_loop], up to
    the first suspension, for the room stored under [room_id]; the
    broadcast is not modelled. *)
Definition game_loop_room (now : Z) (room_id : string) (gm : GameManager.t)
  : result (GameManager.t * list Task) :=
  match get_room gm room_id with
  | None => Ok (gm, [])
  | Some room =>
      if decide (GameRoom.status room ≠ ACTIVE) then Ok (gm, [])
      else
        '(room, tasks) ← update_rope_position now room;
        let gm := put_room room_id room gm in
        match GameRoom.start_time room with
        | Some start =>
            if Rge_dec (total_seconds (now - start))
                       (IZR (Settings.game_duration settings))
            then Ok (end_game now (GameRoom.id room) gm, tasks)
            else Ok (gm, tasks)
        | None => Ok (gm, tasks)
        end
  end.
End Engine.

(** ** matchmaking.py *)

(** [not player.session_id] *)
Definition falsy (s : option string) : bool :=
  match s with
  | None => true
  | Some s => bool_decide (s = "")
  end.

Definition add_player (now : Z) (player : Player.t)
    (queue : list QueuePlayer.t) : list QueuePlayer.t :=
  if existsb (λ q_player,
        bool_decide (Some (QueuePlayer.session_id q_player)
                     = Player.session_id player)) queue
  then queue
  else if falsy (Player.session_id player) then queue
  else
    match Player.session_id player with
    | Some s =>
        queue ++ [{| QueuePlayer.player := player;
                     QueuePlayer.joined_at := now;
                     QueuePlayer.session_id := s |}]
    | None => queue
    end.

Definition remove_player (session_id : string) (queue : list QueuePlayer.t)
  : list QueuePlayer.t :=
  filter (λ p, QueuePlayer.session_id p ≠ session_id) queue.

(** Returns the match, if any, and the queue it leaves. *)
Definition find_match (queue : list QueuePlayer.t)
  : result (option (Player.t * Player.t) * list QueuePlayer.t) :=
  if decide (length queue < 2) then Ok (None, queue)
  else
    '(player1, queue) ← pop0 queue;
    '(player2, queue) ← pop0 queue;
    Ok (Some (QueuePlayer.player player1, QueuePlayer.player player2), queue).

(** The entry [add_player] makes for a player with session [s]. *)
Definition entry (now : Z) (player : Player.t) (s : string) : QueuePlayer.t :=
  {| QueuePlayer.player := player;
     QueuePlayer.joined_at := now;
     QueuePlayer.session_id := s |}.

(** ** Schedules

    Every atomic piece of the engine that the event loop may run.  A
    sequence of actions is one interleaving of the coroutines. *)

Inductive Action :=
| CreateRoom (new_id : string) (player1 player2 : Player.t)
| StartGame (now : Z) (room_id : string)
| RegisterPull (now : Z) (room_id player_id username : string)
| UpdateRopePosition (now : Z) (room_id : string)
| EndGame (now : Z) (room_id : string)
| CleanupRoom (room_id : string)
| HandlePlayerDisconnect (now : Z) (room_id session_id : string)
| GameLoopRoom (now : Z) (room_id : string).

Section Schedules.
Variable settings : Settings.t.

Definition step (a : Action) (gm : GameManager.t) : result GameManager.t :=
  match a with
  | CreateRoom new_id player1 player2 =>
      Ok (create_room new_id player1 player2 gm).1
  | StartGame now room_id => Ok (start_game now room_id gm)
  | RegisterPull now room_id player_id username =>
      register_pull now room_id player_id username gm
  | UpdateRopePosition now room_id =>
      match get_room gm room_id with
      | None => Ok gm
      | Some room =>
          '(room, _) ← update_rope_position settings now room;
          Ok (put_room room_id room gm)
      end
  | EndGame now room_id => Ok (end_game settings now room_id gm)
  | CleanupRoom room_id => cleanup_room room_id gm
  | HandlePlayerDisconnect now room_id session_id =>
      Ok (handle_player_disconnect settings now room_id session_id gm)
  | GameLoopRoom now room_id =>
      '(gm, _) ← game_loop_room settings now room_id gm;
      Ok gm
  end.

Fixpoint run (acts : list Action) (gm : GameManager.t)
  : result GameManager.t :=
  match acts with
  | [] => Ok gm
  | a :: acts => gm ← step a gm; run acts gm
  end.

(** [uuid4] never repeats an id that is in use. *)
Definition enabled (a : Action) (gm : GameManager.t) : Prop :=
  match a with
  | CreateRoom new_id _ _ => GameManager.rooms gm !! new_id = None
  | _ => True
  end.

Inductive reachable : GameManager.t → Prop :=
| reachable_init : reachable init
| reachable_step a gm gm' :
    reachable gm → enabled a gm → step a gm = Ok gm' → reachable gm'.
End Schedules.

(** ** Invariants *)

(** The order in which the statuses are meant to be visited. *)
Definition status_rank (s : GameStatus) : nat :=
  match s with
  | WAITING => 0
  | ACTIVE => 1
  | FINISHED | ABANDONED => 2
  end.

Definition terminal (s : GameStatus) : Prop := s = FINISHED ∨ s = ABANDONED.

Definition in_bounds (settings : Settings.t) (x : R) : Prop :=
  (- Settings.win_threshold settings <= x <= Settings.win_threshold settings)%R.

(** Every room is stored under its own id. *)
Definition ids_wf (gm : GameManager.t) : Prop :=
  ∀ room_id room,
    GameManager.rooms gm !! room_id = Some room → GameRoom.id room = room_id.

(** Every session entry points to a stored room that has a player with
    that session. *)
Definition sessions_wf (gm : GameManager.t) : Prop :=
  ∀ s room_id,
    GameManager.session_to_room gm !! s = Some room_id →
    ∃ room,
      GameManager.rooms gm !! room_id = Some room ∧
      (s = Player.session_id (GameRoom.player1 room) ∨
       s = Player.session_id (GameRoom.player2 room)).

(** A started room carries both pull counters. *)
Definition has_counters (room : GameRoom.t) : Prop :=
  GameRoom.status room = ACTIVE →
  is_Some (GameRoom.player1_stats room !! "total_pulls") ∧
  is_Some (GameRoom.player2_stats room !! "total_pulls").

Definition stats_wf (gm : GameManager.t) : Prop :=
  ∀ room_id room,
    GameManager.rooms gm !! room_id = Some room → has_counters room.

Definition bounds_wf (settings : Settings.t) (gm : GameManager.t) : Prop :=
  ∀ room_id room,
    GameManager.rooms gm !! room_id = Some room →
    in_bounds settings (GameRoom.rope_position room).

(** What a mutation of a room object may change: never its identity, and
    the status only forward. *)
Definition room_trans (settings : Settings.t) (r r' : GameRoom.t) : Prop :=
  GameRoom.id r' = GameRoom.id r ∧
  GameRoom.player1 r' = GameRoom.player1 r ∧
  GameRoom.player2 r' = GameRoom.player2 r ∧
  status_rank (GameRoom.status r) ≤ status_rank (GameRoom.status r') ∧
  (GameRoom.status r = FINISHED → GameRoom.status r' = FINISHED) ∧
  ((0 <= Settings.win_threshold settings)%R →
   in_bounds settings (GameRoom.rope_position r) →
   in_bounds settings (GameRoom.rope_position r')) ∧
  (has_counters r → has_counters r').

(** A step that mutates room objects and leaves both indexes alone. *)
Definition gm_trans (settings : Settings.t) (gm gm' : GameManager.t) : Prop :=
  GameManager.session_to_room gm' = GameManager.session_to_room gm ∧
  ∀ k, option_Forall2 (room_trans settings)
         (GameManager.rooms gm !! k) (GameManager.rooms gm' !! k).

(** ** The aggregation as the specification words it

    [contributes now room player u]: some pull event of the history is
    younger than the 30-second window, targets [player], and was sent by
    viewer [u]. *)
Definition contributes (now : Z) (room : GameRoom.t) (player : Player.t)
    (u : string) : Prop :=
  ∃ p,
    p ∈ GameRoom.pull_history room ∧
    (now - PullData.timestamp p < 30 * 1000000)%Z ∧
    PullData.player_id p = Player.id player ∧
    PullData.username p = u.

(** ** Sample data *)

Definition alice : Player.t :=
  {| Player.id := "p1"; Player.username := "alice";
     Player.channel_name := "alice_tv"; Player.access_token := "t1";
     Player.viewer_count := 10; Player.session_id := Some "sa" |}.

Definition bob : Player.t :=
  {| Player.id := "p2"; Player.username := "bob";
     Player.channel_name := "bob_tv"; Player.access_token := "t2";
     Player.viewer_count := 0; Player.session_id := Some "sb" |}.

Definition carol : Player.t :=
  {| Player.id := "p3"; Player.username := "carol";
     Player.channel_name := "carol_tv"; Player.access_token := "t3";
     Player.viewer_count := 7; Player.session_id := Some "sc" |}.

(** Alice and Bob are matched into room ["r1"], which is then started. *)
Definition gm_waiting : GameManager.t := (create_room "r1" alice bob init).1.
Definition gm_active : GameManager.t := start_game 0 "r1" gm_waiting.

(** Room ["r1"] ten seconds into the game: three distinct viewers pulled
    for Alice within the window (one of them twice), one pulled for her
    forty seconds before the game, one pulled for Bob. *)
Definition pull_at (seconds : Z) (username player_id : string) : PullData.t :=
  {| PullData.timestamp := seconds * 1000000;
     PullData.username := username;
     PullData.player_id := player_id |}.

Definition room_pulled : GameRoom.t :=
  {| GameRoom.id := "r1";
     GameRoom.player1 := alice;
     GameRoom.player2 := bob;
     GameRoom.status := ACTIVE;
     GameRoom.rope_position := 0;
     GameRoom.start_time := Some 0%Z;
     GameRoom.end_time := None;
     GameRoom.winner_id := None;
     GameRoom.pull_history :=
       [pull_at (-40) "v4" "p1"; pull_at 1 "v1" "p1"; pull_at 2 "v2" "p1";
        pull_at 3 "v1" "p1"; pull_at 4 "v3" "p1"; pull_at 5 "v9" "p2"];
     GameRoom.player1_stats := initial_stats;
     GameRoom.player2_stats := initial_stats |}.

(** The same room two minutes into the game, Alice ahead by 5. *)
Definition room_ahead : GameRoom.t := set_rope_position 5 room_pulled.
Definition gm_ahead : GameManager.t := put_room "r1" room_ahead gm_active.

(** The same room with the rope at Alice's end, before the scheduled
    [end_game] has run. *)
Definition room_won : GameRoom.t := set_rope_position 100 room_pulled.
Definition gm_won : GameManager.t := put_room "r1" room_won gm_active.

(** Alice is matched again, with Carol, while ["r1"] is still stored. *)
Definition gm_rematched : GameManager.t :=
  (create_room "r2" alice carol gm_waiting).1.

(** ** The rest of game_manager.py *)

(** [get_room_by_session]: a missing entry and an empty room id are both
    falsy. *)
Definition get_room_by_session (gm : GameManager.t) (session_id : string)
  : option GameRoom.t :=
  match GameManager.session_to_room gm !! Some session_id with
  | Some room_id =>
      if bool_decide (room_id = "") then None else get_room gm room_id
  | None => None
  end.

Module GameState.
Record t := mk {
  room_id : string;
  rope_position : R;
  player1_score : Z;
  player2_score : Z;
  time_remaining : Z;
  status : GameStatus;
  player1_engagement : R;
  player2_engagement : R
}.
End GameState.

(** [int(x)] on a float: truncation toward zero. *)
Definition py_int (x : R) : Z :=
  if Rle_dec 0 x then Int_part x else (- Int_part (- x))%Z.

(** [d.get(k, 0)] *)
Definition get_or_0 (d : gmap string R) (k : string) : R := default 0%R (d !! k).

Definition get_game_state (settings : Settings.t) (now : Z)
    (gm : GameManager.t) (room_id : string) : option GameState.t :=
  match get_room gm room_id with
  | None => None
  | Some room =>
      let time_remaining :=
        match GameRoom.start_time room with
        | Some start =>
            if decide (GameRoom.status room = ACTIVE) then
              let elapsed := total_seconds (now - start) in
              py_max 0 (IZR (Settings.game_duration settings) - elapsed)
            else 0%R
        | None => 0%R
        end in
      Some {| GameState.room_id := room_id;
              GameState.rope_position := GameRoom.rope_position room;
              GameState.player1_score :=
                py_int (get_or_0 (GameRoom.player1_stats room) "unique_pullers");
              GameState.player2_score :=
                py_int (get_or_0 (GameRoom.player2_stats room) "unique_pullers");
              GameState.time_remaining := py_int time_remaining;
              GameState.status := GameRoom.status room;
              GameState.player1_engagement :=
                get_or_0 (GameRoom.player1_stats room) "engagement_rate";
              GameState.player2_engagement :=
                get_or_0 (GameRoom.player2_stats room) "engagement_rate" |}
  end.

(** ** Room-level view of the manager's methods

    What each method does to the room object it finds. *)

(** The room built by [create_room]. *)
Definition fresh_room (new_id : string) (player1 player2 : Player.t)
  : GameRoom.t :=
  (create_room new_id player1 player2 init).2.

(** [start_game] on a WAITING room. *)
Definition started (now : Z) (room : GameRoom.t) : GameRoom.t :=
  set_player2_stats initial_stats
    (set_player1_stats initial_stats
       (set_rope_position 0
          (set_start_time (Some now) (set_status ACTIVE room)))).

(** [register_pull] on an ACTIVE room. *)
Definition pulled (now : Z) (player_id username : string) (room : GameRoom.t)
  : result GameRoom.t :=
  let pull :=
    {| PullData.timestamp := now;
       PullData.username := username;
       PullData.player_id := player_id |} in
  let room := set_pull_history (GameRoom.pull_history room ++ [pull]) room in
  if decide (player_id = Player.id (GameRoom.player1 room)) then
    n ← getitem (GameRoom.player1_stats room) "total_pulls";
    Ok (set_player1_stats
          (<["total_pulls" := (n + 1)%R]> (GameRoom.player1_stats room)) room)
  else
    n ← getitem (GameRoom.player2_stats room) "total_pulls";
    Ok (set_player2_stats
          (<["total_pulls" := (n + 1)%R]> (GameRoom.player2_stats room)) room).

(** [end_game] on any room. *)
Definition finished (settings : Settings.t) (now : Z) (room : GameRoom.t)
  : GameRoom.t :=
  determine_winner settings (set_end_time (Some now) (set_status FINISHED room)).

(** One mutation of a room object by an atomic piece of the engine. *)
Inductive room_step (settings : Settings.t) : GameRoom.t → GameRoom.t → Prop :=
| room_step_start now room :
    GameRoom.status room = WAITING →
    room_step settings room (started now room)
| room_step_pull now player_id username room room' :
    GameRoom.status room = ACTIVE →
    pulled now player_id username room = Ok room' →
    room_step settings room room'
| room_step_tick now room room' tasks :
    GameRoom.status room = ACTIVE →
    update_rope_position settings now room = Ok (room', tasks) →
    room_step settings room room'
| room_step_finish now room :
    room_step settings room (finished settings now room)
| room_step_disconnect now session_id room :
    room_step settings room (finished settings now (forfeit session_id room)).

(** ** twitch_chat.py: the per-user cooldown *)

(** [timedelta(seconds=self.cooldown_seconds)], with [cooldown_seconds = 0.5] *)
Definition cooldown : Z := 500000.

(** [can_pull]: the answer and the updated [user_cooldowns]. *)
Definition can_pull (now : Z) (username : string)
    (user_cooldowns : gmap string Z) : bool * gmap string Z :=
  match user_cooldowns !! username with
  | Some last_pull =>
      if decide (now - last_pull < cooldown)%Z then (false, user_cooldowns)
      else (true, <[username := now]> user_cooldowns)
  | None => (true, <[username := now]> user_cooldowns)
  end.

(** The [!pull] commands of one chat, oldest first, fed to [can_pull]; the
    result lists the commands that were let through. *)
Fixpoint let_through (commands : list (Z * string))
    (user_cooldowns : gmap string Z) : list (Z * string) :=
  match commands with
  | [] => []
  | (now, username) :: commands =>
      let '(ok, user_cooldowns) := can_pull now username user_cooldowns in
      if ok then (now, username) :: let_through commands user_cooldowns
      else let_through commands user_cooldowns
  end.

(** ** Callers: the matchmaking loop and the disconnect handler *)

(** One iteration of [process_queue] up to its first suspension: the match
    and the room created for it.  [new_id] is the id drawn for the room. *)
Definition process_queue_match (new_id : string) (queue : list QueuePlayer.t)
    (gm : GameManager.t)
  : result (list QueuePlayer.t * GameManager.t * option GameRoom.t) :=
  '(found, queue) ← find_match queue;
  match found with
  | Some (player1, player2) =>
      let '(gm, room) := create_room new_id player1 player2 gm in
      Ok (queue, gm, Some room)
  | None => Ok (queue, gm, None)
  end.

(** [main.handle_disconnect] up to the suspension inside [end_game]; the
    chat monitors are not modelled. *)
Definition handle_disconnect (settings : Settings.t) (now : Z)
    (session_id : string) (queue : list QueuePlayer.t) (gm : GameManager.t)
  : list QueuePlayer.t * GameManager.t :=
  let queue := remove_player session_id queue in
  match get_room_by_session gm session_id with
  | Some room =>
      (queue,
       handle_player_disconnect settings now (GameRoom.id room) session_id gm)
  | None => (queue, gm)
  end.

(** ** More invariants *)

(** The sessions of a queue, front first. *)
Definition queued_sessions (queue : list QueuePlayer.t) : list string :=
  QueuePlayer.session_id <$> queue.

(** No session waits twice, and every entry carries its player's own,
    non-empty session. *)
Definition queue_wf (queue : list QueuePlayer.t) : Prop :=
  NoDup (queued_sessions queue) ∧
  Forall (λ e, QueuePlayer.session_id e ≠ "" ∧
               Player.session_id (QueuePlayer.player e)
                 = Some (QueuePlayer.session_id e)) queue.

(** How the fields of a room go together in each status. *)
Definition lifecycle_wf (room : GameRoom.t) : Prop :=
  match GameRoom.status room with
  | WAITING =>
      GameRoom.start_time room = None ∧ GameRoom.end_time room = None ∧
      GameRoom.winner_id room = None ∧ GameRoom.pull_history room = [] ∧
      GameRoom.rope_position room = 0%R
  | ACTIVE =>
      is_Some (GameRoom.start_time room) ∧ GameRoom.end_time room = None ∧
      GameRoom.winner_id room = None
  | FINISHED =>
      is_Some (GameRoom.end_time room) ∧
      (∀ w, GameRoom.winner_id room = Some w →
            w = Player.id (GameRoom.player1 room) ∨
            w = Player.id (GameRoom.player2 room))
  | ABANDONED => False
  end.

(** The pull counters of a started room account for its whole history:
    player 1's counts the events sent for player 1's id, player 2's all the
    others. *)
Definition counters_match (room : GameRoom.t) : Prop :=
  GameRoom.player1_stats room !! "total_pulls" =
    Some (INR (length (filter
      (λ p, PullData.player_id p = Player.id (GameRoom.player1 room))
      (GameRoom.pull_history room)))) ∧
  GameRoom.player2_stats room !! "total_pulls" =
    Some (INR (length (filter
      (λ p, PullData.player_id p ≠ Player.id (GameRoom.player1 room))
      (GameRoom.pull_history room)))).

Definition counters_wf (room : GameRoom.t) : Prop :=
  (GameRoom.status room = WAITING → GameRoom.start_time room = None) ∧
  match GameRoom.start_time room with
  | None => GameRoom.pull_history room = [] ∧ GameRoom.status room ≠ ACTIVE
  | Some _ => counters_match room
  end.

(** ** More sample data *)

(** Room ["r1"] after viewer v1 pulled for Alice, and then after two more
    pulls: v9 for Bob, and v3 under an id that belongs to neither player. *)
Definition room_one_pull : GameRoom.t :=
  set_player1_stats (<["total_pulls" := (0 + 1)%R]> initial_stats)
    (set_pull_history [pull_at 1 "v1" "p1"]
       (started 0 (fresh_room "r1" alice bob))).

Definition room_three_pulls : GameRoom.t :=
  set_player2_stats
    (<["total_pulls" := (0 + 1 + 1)%R]>
       (<["total_pulls" := (0 + 1)%R]> initial_stats))
    (set_pull_history
       [pull_at 1 "v1" "p1"; pull_at 2 "v9" "p2"; pull_at 3 "v3" "zz"]
       room_one_pull).

Definition gm_one_pull : GameManager.t := put_room "r1" room_one_pull gm_active.
Definition gm_three_pulls : GameManager.t :=
  put_room "r1" room_three_pulls gm_active.

(** Room ["r1"] ten seconds into the game with the rope a twentieth short of
    Bob's end. *)
Definition room_last_inch : GameRoom.t :=
  set_rope_position (- (9995 / 100)) room_pulled.

(** Alice's account logged in a second time, from another connection. *)
Definition alice_again : Player.t :=
  {| Player.id := "p1"; Player.username := "alice";
     Player.channel_name := "alice_tv"; Player.access_token := "t1";
     Player.viewer_count := 10; Player.session_id := Some "sa2" |}.

(** ** Binary64 arithmetic

    The engagement rate and the pull power once more, with the rounding of
    Python's [float] written out: IEEE 754 binary64, round to nearest, ties
    to even.  A float is the real number it stands for and an operation
    returns the float nearest to its exact result.  Overflow to infinity and
    NaN are not modelled: the values below stay under [2 ^ 1024] as long as
    the base strength times the number of unique pullers does. *)

(** [2 ^ e] *)
Definition exp2 (e : Z) : R := powerRZ 2 e.

(** The binary order of magnitude of [x ≠ 0]:
    [2 ^ (mag x - 1) <= |x| < 2 ^ mag x]. *)
Definition mag (x : R) : Z := (Zfloor (ln (Rabs x) / ln 2) + 1)%Z.

(** The exponent of the last bit of the float nearest to [x]: 53 significant
    bits, and never below [-1074], the last bit of the subnormal numbers. *)
Definition last_place (x : R) : Z := Z.max (mag x - 53) (-1074).

(** The nearest integer, the even one of two that are equally near. *)
Definition nearest_even (y : R) : Z :=
  let f := Zfloor y in
  if Rlt_dec (y - IZR f) (1 / 2) then f
  else if Rlt_dec (1 / 2) (y - IZR f) then (f + 1)%Z
  else if Z.even f then f else (f + 1)%Z.

(** The float an exact result [x] is rounded to. *)
Definition round64 (x : R) : R :=
  let e := last_place x in
  (IZR (nearest_even (x * exp2 (- e))) * exp2 e)%R.

(** [unique / max(player.viewer_count, 1)]: the true division of two [int]s
    returns the float nearest to the exact quotient. *)
Definition engagement64 (unique : nat) (player : Player.t) : R :=
  round64 (engagement unique player).




(** * Properties *)

(** Pass a [status != ...] guard of a method, given [Hst], the actual status
    of the room. *)
Ltac pass_status_guard Hst :=
  rewrite decide_False by (rewrite Hst; intros H; by apply H).

(** ** Matchmaking *)

Lemma add_player_tail now player queue :
  add_player now player queue = queue ∨
  ∃ s, Player.session_id player = Some s ∧
       add_player now player queue =
         queue ++ [{| QueuePlayer.player := player;
                      QueuePlayer.joined_at := now;
                      QueuePlayer.session_id := s |}].
Proof.
  unfold add_player.
  destruct (existsb _ queue); [by left|].
  destruct (falsy _); [by left|].
  destruct (Player.session_id player) as [s|]; [right; eauto | by left].
Qed.

Lemma add_player_fresh now player queue s :
  Player.session_id player = Some s →
  s ≠ "" →
  Forall (λ q, QueuePlayer.session_id q ≠ s) queue →
  add_player now player queue =
    queue ++ [{| QueuePlayer.player := player;
                 QueuePlayer.joined_at := now;
                 QueuePlayer.session_id := s |}].
Proof.
  intros Hs Hne Hall. unfold add_player. rewrite Hs.
  replace (existsb _ queue) with false.
  - simpl. by rewrite bool_decide_eq_false_2.
  - symmetry. apply not_true_is_false. intros Hex.
    apply existsb_exists in Hex as (q & Hin & Hq).
    apply bool_decide_eq_true_1 in Hq.
    rewrite Forall_forall in Hall.
    apply list_elem_of_In in Hin. specialize (Hall _ Hin). congruence.
Qed.

Lemma remove_player_sublist session_id queue :
  sublist (remove_player session_id queue) queue.
Proof. apply sublist_filter. Qed.

Lemma find_match_head (queue : list QueuePlayer.t) :
  match queue with
  | a :: b :: rest =>
      find_match queue =
        Ok (Some (QueuePlayer.player a, QueuePlayer.player b), rest)
  | _ => find_match queue = Ok (None, queue)
  end.
Proof. by destruct queue as [|a [|b rest]]. Qed.

(** C7. [find_match] is strict FIFO.  A queue of at least two entries loses
    its two front entries, returned in that order, and keeps the rest in
    order; a shorter queue gives no match and is unchanged; it never raises.
    The front of the queue is the earliest arrival, because [add_player]
    only ever appends at the back.  In particular, after A, B and C (three
    distinct non-empty sessions) were enqueued in that order, the first
    match is (A, B), C stays queued, and a second attempt finds nothing. *)
Theorem find_match_fifo :
  (∀ a b rest,
     find_match (a :: b :: rest) =
       Ok (Some (QueuePlayer.player a, QueuePlayer.player b), rest)) ∧
  (∀ queue, length queue < 2 → find_match queue = Ok (None, queue)) ∧
  (∀ now player queue,
     ∃ back, add_player now player queue = queue ++ back) ∧
  (∀ A B C sa sb sc ta tb tc,
     Player.session_id A = Some sa →
     Player.session_id B = Some sb →
     Player.session_id C = Some sc →
     sa ≠ "" → sb ≠ "" → sc ≠ "" →
     sa ≠ sb → sa ≠ sc → sb ≠ sc →
     let queue := add_player tc C (add_player tb B (add_player ta A [])) in
     find_match queue = Ok (Some (A, B), [entry tc C sc]) ∧
     find_match [entry tc C sc] = Ok (None, [entry tc C sc])).
Proof.
  split_and!.
  - intros a b rest. apply (find_match_head (a :: b :: rest)).
  - intros [|a [|b rest]] Hlen; simpl in Hlen; try lia; done.
  - intros now player queue.
    destruct (add_player_tail now player queue) as [->|(s & _ & ->)].
    + exists []. by rewrite app_nil_r.
    + eauto.
  - intros A B C sa sb sc ta tb tc HA HB HC Ha Hb Hc Hab Hac Hbc queue.
    subst queue.
    rewrite (add_player_fresh ta A [] sa), (add_player_fresh tb B _ sb),
      (add_player_fresh tc C _ sc); try done.
    + repeat constructor; simpl; congruence.
    + repeat constructor; simpl; congruence.
Qed.

Lemma find_match_fifo_witness :
  find_match (add_player 3 carol (add_player 2 bob (add_player 1 alice []))) =
    Ok (Some (alice, bob), [entry 3 carol "sc"]) ∧
  find_match [entry 3 carol "sc"] = Ok (None, [entry 3 carol "sc"]).
Proof.
  apply (proj2 (proj2 (proj2 find_match_fifo))
           alice bob carol "sa" "sb" "sc" 1%Z 2%Z 3%Z); done.
Defined.

(** ** The registry *)

Lemma guarded_del {K V} `{Countable K} (d : gmap K V) (k : K) :
  (if contains d k then delitem d k else Ok d) = Ok (delete k d).
Proof.
  unfold contains, delitem. destruct (d !! k) as [v|] eqn:Hk.
  - by rewrite bool_decide_eq_true_2.
  - rewrite bool_decide_eq_false_2; [|by intros [? ?]].
    by rewrite delete_id.
Qed.

Lemma cleanup_room_eq room_id gm :
  cleanup_room room_id gm =
    Ok {| GameManager.rooms := delete room_id (GameManager.rooms gm);
          GameManager.session_to_room :=
            match get_room gm room_id with
            | Some room =>
                delete (Player.session_id (GameRoom.player2 room))
                  (delete (Player.session_id (GameRoom.player1 room))
                     (GameManager.session_to_room gm))
            | None => GameManager.session_to_room gm
            end |}.
Proof.
  unfold cleanup_room. destruct (get_room gm room_id) as [room|].
  - rewrite guarded_del. simpl. rewrite guarded_del. simpl.
    by rewrite guarded_del.
  - simpl. by rewrite guarded_del.
Qed.

(** C10. [cleanup_room] deletes the session entries keyed by the two
    players' session handles whatever room id they hold, so an entry that
    was re-pointed to a newer room is deleted too; every other session
    entry and every other room entry is unchanged. *)
Theorem cleanup_room_frame room_id gm room :
  get_room gm room_id = Some room →
  ∃ gm',
    cleanup_room room_id gm = Ok gm' ∧
    (∀ s,
       GameManager.session_to_room gm' !! s =
         if decide (s = Player.session_id (GameRoom.player1 room) ∨
                    s = Player.session_id (GameRoom.player2 room))
         then None
         else GameManager.session_to_room gm !! s) ∧
    (∀ s newer,
       s = Player.session_id (GameRoom.player1 room) ∨
       s = Player.session_id (GameRoom.player2 room) →
       GameManager.session_to_room gm !! s = Some newer →
       GameManager.session_to_room gm' !! s = None) ∧
    (∀ k,
       GameManager.rooms gm' !! k =
         if decide (k = room_id) then None else GameManager.rooms gm !! k).
Proof.
  intros Hroom. rewrite cleanup_room_eq, Hroom.
  eexists. split; [done|]. simpl.
  assert (Hs : ∀ s,
    delete (Player.session_id (GameRoom.player2 room))
      (delete (Player.session_id (GameRoom.player1 room))
         (GameManager.session_to_room gm)) !! s =
    if decide (s = Player.session_id (GameRoom.player1 room) ∨
               s = Player.session_id (GameRoom.player2 room))
    then None else GameManager.session_to_room gm !! s).
  { intros s. rewrite !lookup_delete.
    destruct (decide (Player.session_id (GameRoom.player2 room) = s)),
      (decide (Player.session_id (GameRoom.player1 room) = s)),
      (decide (s = Player.session_id (GameRoom.player1 room) ∨
               s = Player.session_id (GameRoom.player2 room)));
      try done; intuition congruence. }
  split_and!.
  - done.
  - intros s newer Hor _. rewrite Hs. by rewrite decide_True.
  - intros k. rewrite lookup_delete. repeat case_decide; congruence.
Qed.

Lemma cleanup_room_frame_witness :
  GameManager.session_to_room gm_rematched !! Some "sa" = Some "r2" ∧
  ∃ gm',
    cleanup_room "r1" gm_rematched = Ok gm' ∧
    GameManager.session_to_room gm' !! Some "sa" = None ∧
    GameManager.session_to_room gm' !! Some "sc" = Some "r2" ∧
    GameManager.rooms gm' !! "r1" = None ∧
    is_Some (GameManager.rooms gm' !! "r2").
Proof.
  split; [reflexivity|].
  destruct (cleanup_room_frame "r1" gm_rematched
              (create_room "r1" alice bob init).2 eq_refl)
    as (gm' & Hc & Hs & _ & Hr).
  exists gm'. split; [exact Hc|].
  rewrite !Hs, !Hr. split_and!; try reflexivity. by eexists.
Defined.

(** ** Room mutations *)

Section Transitions.
Variable settings : Settings.t.

Lemma room_trans_refl r : room_trans settings r r.
Proof. unfold room_trans. naive_solver. Qed.

Lemma room_trans_trans r1 r2 r3 :
  room_trans settings r1 r2 → room_trans settings r2 r3 →
  room_trans settings r1 r3.
Proof.
  unfold room_trans.
  intros (?&?&?&?&?&?&?) (?&?&?&?&?&?&?).
  split_and!; try congruence; try lia; auto.
Qed.

Lemma gm_trans_refl gm : gm_trans settings gm gm.
Proof.
  split; [done|]. intros k.
  destruct (GameManager.rooms gm !! k); constructor.
  apply room_trans_refl.
Qed.

Lemma gm_trans_trans gm1 gm2 gm3 :
  gm_trans settings gm1 gm2 → gm_trans settings gm2 gm3 →
  gm_trans settings gm1 gm3.
Proof.
  intros [Hs1 Hr1] [Hs2 Hr2]. split; [congruence|].
  intros k. specialize (Hr1 k). specialize (Hr2 k).
  destruct Hr1 as [r1 r2 H12|]; inversion Hr2; subst; constructor.
  eauto using room_trans_trans.
Qed.

Lemma put_room_trans room_id r r' gm :
  get_room gm room_id = Some r →
  room_trans settings r r' →
  gm_trans settings gm (put_room room_id r' gm).
Proof.
  intros Hr Ht. split; [done|]. intros k. simpl.
  destruct (decide (room_id = k)) as [->|Hne].
  - rewrite lookup_insert_eq. unfold get_room in Hr. rewrite Hr.
    by constructor.
  - rewrite lookup_insert_ne by done.
    destruct (GameManager.rooms gm !! k); constructor.
    apply room_trans_refl.
Qed.

Lemma start_game_trans now room_id gm :
  gm_trans settings gm (start_game now room_id gm).
Proof.
  unfold start_game.
  destruct (get_room gm room_id) as [room|] eqn:Hr;
    [|apply gm_trans_refl].
  case_decide as Hst; [apply gm_trans_refl|].
  eapply put_room_trans; [done|].
  unfold room_trans, has_counters, in_bounds; simpl. rewrite Hst. simpl.
  split_and!; try done; try lia.
  intros. lra.
Qed.

Lemma register_pull_trans now room_id player_id username gm gm' :
  register_pull now room_id player_id username gm = Ok gm' →
  gm_trans settings gm gm'.
Proof.
  unfold register_pull.
  destruct (get_room gm room_id) as [room|] eqn:Hr.
  2:{ intros [= <-]. apply gm_trans_refl. }
  case_decide as Hst.
  { intros [= <-]. apply gm_trans_refl. }
  case_decide as Hp; simpl.
  - destruct (getitem _ _) as [n|] eqn:Hn; simpl; [|done].
    intros [= <-]. eapply put_room_trans; [done|].
    unfold room_trans, has_counters; simpl.
    split_and!; try done.
    intros Hc _. destruct (Hc Hst) as [_ H2].
    split; [by rewrite lookup_insert_eq|done].
  - destruct (getitem _ _) as [n|] eqn:Hn; simpl; [|done].
    intros [= <-]. eapply put_room_trans; [done|].
    unfold room_trans, has_counters; simpl.
    split_and!; try done.
    intros Hc _. destruct (Hc Hst) as [H1 _].
    split; [done|by rewrite lookup_insert_eq].
Qed.

Lemma clamp_in_bounds x :
  (0 <= Settings.win_threshold settings)%R →
  in_bounds settings
    (py_max (- Settings.win_threshold settings)
            (py_min (Settings.win_threshold settings) x)).
Proof.
  unfold in_bounds, py_max, py_min. intros HT.
  repeat destruct (Rlt_dec _ _); lra.
Qed.

(** The rope position written by [update_rope_position]. *)
Lemma update_rope_position_eq now room :
  GameRoom.status room = ACTIVE →
  let stats := calculate_engagement_stats settings now room in
  let recent := recent_pulls now room in
  let u1 := unique_pullers (pulls_of (GameRoom.player1 room) recent) in
  let u2 := unique_pullers (pulls_of (GameRoom.player2 room) recent) in
  let base := Settings.base_pull_strength settings in
  let p1_power := pull_power (engagement u1 (GameRoom.player1 room)) base u1 in
  let p2_power := pull_power (engagement u2 (GameRoom.player2 room)) base u2 in
  let rope :=
    py_max (- Settings.win_threshold settings)
      (py_min (Settings.win_threshold settings)
         (GameRoom.rope_position room + (p1_power - p2_power) * (5 / 10)))%R in
  update_rope_position settings now room =
    Ok (set_rope_position rope stats,
        if Rge_dec (Rabs rope) (Settings.win_threshold settings)
        then [EndGameTask (GameRoom.id room)] else []).
Proof.
  intros Hst. unfold update_rope_position.
  pass_status_guard Hst.
  unfold getitem, calculate_engagement_stats. simpl.
  rewrite !lookup_insert_eq. simpl.
  by destruct (Rge_dec _ _).
Qed.

Lemma update_rope_position_total now room :
  ∃ room' tasks,
    update_rope_position settings now room = Ok (room', tasks).
Proof.
  destruct (decide (GameRoom.status room = ACTIVE)) as [Hst|Hst].
  - rewrite update_rope_position_eq by done. eauto.
  - unfold update_rope_position. rewrite decide_True by done. eauto.
Qed.

Lemma update_rope_position_trans now room room' tasks :
  update_rope_position settings now room = Ok (room', tasks) →
  room_trans settings room room'.
Proof.
  destruct (decide (GameRoom.status room = ACTIVE)) as [Hst|Hst].
  - rewrite update_rope_position_eq by done. intros [= <- _].
    unfold room_trans, has_counters; simpl.
    split_and!; try done.
    + intros HT _. by apply clamp_in_bounds.
    + intros Hc _. destruct (Hc Hst) as [H1 H2].
      by rewrite !lookup_insert_ne.
  - unfold update_rope_position. rewrite decide_True by done.
    intros [= <- _]. apply room_trans_refl.
Qed.

Lemma determine_winner_trans room :
  room_trans settings room (determine_winner settings room).
Proof.
  unfold determine_winner.
  destruct (Rle_dec _ _); [|destruct (Rge_dec _ _)];
    unfold room_trans, has_counters; simpl; naive_solver.
Qed.

Lemma determine_winner_status room :
  GameRoom.status (determine_winner settings room) = GameRoom.status room.
Proof.
  unfold determine_winner.
  by destruct (Rle_dec _ _); [|destruct (Rge_dec _ _)].
Qed.

Lemma end_game_trans now room_id gm :
  gm_trans settings gm (end_game settings now room_id gm).
Proof.
  unfold end_game.
  destruct (get_room gm room_id) as [room|] eqn:Hr;
    [|apply gm_trans_refl].
  eapply put_room_trans; [done|].
  eapply room_trans_trans; [|apply determine_winner_trans].
  unfold room_trans, has_counters; simpl.
  split_and!; try done. destruct (GameRoom.status room); simpl; lia.
Qed.

Lemma forfeit_trans session_id room :
  room_trans settings room (forfeit session_id room).
Proof.
  unfold forfeit. case_decide as Hst; [|apply room_trans_refl].
  case_decide; unfold room_trans, has_counters; simpl; rewrite Hst; simpl;
    split_and!; try done; lia.
Qed.

Lemma handle_player_disconnect_trans now room_id session_id gm :
  gm_trans settings gm
    (handle_player_disconnect settings now room_id session_id gm).
Proof.
  unfold handle_player_disconnect.
  destruct (get_room gm room_id) as [room|] eqn:Hr;
    [|apply gm_trans_refl].
  eapply gm_trans_trans; [|apply end_game_trans].
  eapply put_room_trans; [done|apply forfeit_trans].
Qed.

Lemma game_loop_room_trans now room_id gm gm' tasks :
  game_loop_room settings now room_id gm = Ok (gm', tasks) →
  gm_trans settings gm gm'.
Proof.
  unfold game_loop_room.
  destruct (get_room gm room_id) as [room|] eqn:Hr.
  2:{ intros [= <- _]. apply gm_trans_refl. }
  case_decide as Hst.
  { intros [= <- _]. apply gm_trans_refl. }
  destruct (update_rope_position settings now room) as [[room' ts]|] eqn:Hu;
    simpl; [|done].
  apply update_rope_position_trans in Hu.
  pose proof (put_room_trans _ _ _ _ Hr Hu) as Hput.
  destruct (GameRoom.start_time room') as [start|].
  - destruct (Rge_dec _ _); intros [= <- _]; [|done].
    eapply gm_trans_trans; [exact Hput|apply end_game_trans].
  - by intros [= <- _].
Qed.
End Transitions.

(** ** Steps and reachable states *)

Section Reachability.
Variable settings : Settings.t.

Lemma step_cases a gm gm' :
  step settings a gm = Ok gm' →
  gm_trans settings gm gm' ∨
  (∃ new_id p1 p2,
     a = CreateRoom new_id p1 p2 ∧ gm' = (create_room new_id p1 p2 gm).1) ∨
  (∃ room_id, a = CleanupRoom room_id ∧ cleanup_room room_id gm = Ok gm').
Proof.
  destruct a; simpl.
  - intros [= <-]. right; left. eauto.
  - intros [= <-]. left. apply start_game_trans.
  - intros H. left. by eapply register_pull_trans.
  - destruct (get_room gm room_id) as [room|] eqn:Hr.
    2:{ intros [= <-]. left. apply gm_trans_refl. }
    destruct (update_rope_position settings now room) as [[room' ts]|] eqn:Hu;
      simpl; [|done].
    intros [= <-]. left.
    eapply put_room_trans; [done|by eapply update_rope_position_trans].
  - intros [= <-]. left. apply end_game_trans.
  - intros H. right; right. eauto.
  - intros [= <-]. left. apply handle_player_disconnect_trans.
  - destruct (game_loop_room settings now room_id gm) as [[gm1 ts]|] eqn:Hg;
      simpl; [|done].
    intros [= <-]. left. by eapply game_loop_room_trans.
Qed.

(** Where a room found after a step comes from. *)
Lemma step_room_lookup a gm gm' k r' :
  step settings a gm = Ok gm' →
  GameManager.rooms gm' !! k = Some r' →
  (∃ r, GameManager.rooms gm !! k = Some r ∧ room_trans settings r r') ∨
  (∃ p1 p2, a = CreateRoom k p1 p2 ∧ r' = (create_room k p1 p2 gm).2).
Proof.
  intros Hstep Hk.
  destruct (step_cases _ _ _ Hstep)
    as [[_ Hr]|[(new_id & p1 & p2 & -> & ->)|(room_id & -> & Hc)]].
  - specialize (Hr k). rewrite Hk in Hr. inversion Hr; subst. eauto.
  - simpl in Hk. destruct (decide (new_id = k)) as [->|Hne].
    + rewrite lookup_insert_eq in Hk. injection Hk as <-. right. eauto.
    + rewrite lookup_insert_ne in Hk by done. left.
      eauto using room_trans_refl.
  - rewrite cleanup_room_eq in Hc. injection Hc as <-. simpl in Hk.
    apply lookup_delete_Some in Hk as [_ Hk]. left.
    eauto using room_trans_refl.
Qed.

Lemma step_ids_wf a gm gm' :
  step settings a gm = Ok gm' → ids_wf gm → ids_wf gm'.
Proof.
  intros Hstep Hwf k r' Hk.
  destruct (step_room_lookup _ _ _ _ _ Hstep Hk)
    as [(r & Hr & Hid & _)|(p1 & p2 & _ & ->)]; [|done].
  rewrite Hid. eauto.
Qed.

Lemma step_stats_wf a gm gm' :
  step settings a gm = Ok gm' → stats_wf gm → stats_wf gm'.
Proof.
  intros Hstep Hwf k r' Hk.
  destruct (step_room_lookup _ _ _ _ _ Hstep Hk)
    as [(r & Hr & Ht)|(p1 & p2 & _ & ->)]; [|done].
  apply Ht. eauto.
Qed.

Lemma step_bounded_at a gm gm' k :
  (0 <= Settings.win_threshold settings)%R →
  step settings a gm = Ok gm' →
  (∀ r, GameManager.rooms gm !! k = Some r →
        in_bounds settings (GameRoom.rope_position r)) →
  ∀ r', GameManager.rooms gm' !! k = Some r' →
        in_bounds settings (GameRoom.rope_position r').
Proof.
  intros HT Hstep Hwf r' Hk.
  destruct (step_room_lookup _ _ _ _ _ Hstep Hk)
    as [(r & Hr & Ht)|(p1 & p2 & _ & ->)].
  - apply Ht; eauto.
  - unfold in_bounds. simpl. lra.
Qed.

Lemma run_bounded_at acts gm gm' k :
  (0 <= Settings.win_threshold settings)%R →
  run settings acts gm = Ok gm' →
  (∀ r, GameManager.rooms gm !! k = Some r →
        in_bounds settings (GameRoom.rope_position r)) →
  ∀ r', GameManager.rooms gm' !! k = Some r' →
        in_bounds settings (GameRoom.rope_position r').
Proof.
  intros HT. revert gm. induction acts as [|a acts IH]; intros gm; simpl.
  - by intros [= <-].
  - destruct (step settings a gm) as [gm1|] eqn:Hstep; simpl; [|done].
    intros Hrun Hwf. eapply IH; [done|].
    by eapply step_bounded_at.
Qed.

Lemma step_sessions_wf a gm gm' :
  enabled a gm →
  step settings a gm = Ok gm' → sessions_wf gm → sessions_wf gm'.
Proof.
  intros Hen Hstep Hwf s k Hs.
  destruct (step_cases _ _ _ Hstep)
    as [[Hsess Hr]|[(new_id & p1 & p2 & -> & ->)|(room_id & -> & Hc)]].
  - rewrite Hsess in Hs. destruct (Hwf _ _ Hs) as (r & Hk & Hor).
    specialize (Hr k). rewrite Hk in Hr. inversion Hr as [? r' Ht|]; subst.
    destruct Ht as (_ & H1 & H2 & _). exists r'.
    split; [done|]. by rewrite H1, H2.
  - simpl in *.
    destruct (decide (Player.session_id p2 = s)) as [<-|Hn2].
    { rewrite lookup_insert_eq in Hs. injection Hs as <-.
      rewrite lookup_insert_eq. eexists. split; [done|]. by right. }
    rewrite lookup_insert_ne in Hs by done.
    destruct (decide (Player.session_id p1 = s)) as [<-|Hn1].
    { rewrite lookup_insert_eq in Hs. injection Hs as <-.
      rewrite lookup_insert_eq. eexists. split; [done|]. by left. }
    rewrite lookup_insert_ne in Hs by done.
    destruct (Hwf _ _ Hs) as (r & Hk & Hor).
    exists r. split; [|done].
    rewrite lookup_insert_ne; [done|]. intros ->. congruence.
  - rewrite cleanup_room_eq in Hc. injection Hc as <-. simpl in *.
    destruct (get_room gm room_id) as [room|] eqn:Hroom.
    + apply lookup_delete_Some in Hs as [Hn2 Hs].
      apply lookup_delete_Some in Hs as [Hn1 Hs].
      destruct (Hwf _ _ Hs) as (r & Hk & Hor).
      exists r. split; [|done].
      rewrite lookup_delete_ne; [done|]. intros ->.
      unfold get_room in Hroom. rewrite Hroom in Hk. injection Hk as ->.
      destruct Hor; congruence.
    + destruct (Hwf _ _ Hs) as (r & Hk & Hor).
      exists r. split; [|done].
      rewrite lookup_delete_ne; [done|]. intros ->.
      unfold get_room in Hroom. congruence.
Qed.

Lemma reachable_wf gm :
  reachable settings gm → ids_wf gm ∧ sessions_wf gm ∧ stats_wf gm.
Proof.
  induction 1 as [|a gm gm' _ (Hi & Hs & Ht) Hen Hstep].
  - split_and!; intros ? ? H; simpl in H; by rewrite lookup_empty in H.
  - split_and!;
      [by eapply step_ids_wf|by eapply step_sessions_wf
      |by eapply step_stats_wf].
Qed.

Lemma reachable_run acts gm gm' :
  reachable settings gm →
  Forall (λ a, ∀ new_id p1 p2, a ≠ CreateRoom new_id p1 p2) acts →
  run settings acts gm = Ok gm' →
  reachable settings gm'.
Proof.
  intros Hgm Hacts. revert gm Hgm.
  induction Hacts as [|a acts Ha _ IH]; intros gm Hgm; simpl.
  - by intros [= <-].
  - destruct (step settings a gm) as [gm1|] eqn:Hstep; simpl; [|done].
    apply IH. eapply reachable_step; [done| |done].
    destruct a; try done. by edestruct Ha.
Qed.
End Reachability.

Section Totality.
Variable settings : Settings.t.

Lemma register_pull_total now room_id player_id username gm :
  stats_wf gm →
  ∃ gm', register_pull now room_id player_id username gm = Ok gm'.
Proof.
  intros Hwf. unfold register_pull.
  destruct (get_room gm room_id) as [room|] eqn:Hr; [|eauto].
  case_decide as Hst; [eauto|].
  destruct (Hwf _ _ Hr Hst) as [[n1 H1] [n2 H2]].
  unfold getitem. case_decide; simpl; [rewrite H1|rewrite H2]; simpl; eauto.
Qed.

Lemma step_total a gm :
  stats_wf gm → ∃ gm', step settings a gm = Ok gm'.
Proof.
  intros Hwf. destruct a; simpl; eauto.
  - by apply register_pull_total.
  - destruct (get_room gm room_id) as [room|]; [|eauto].
    destruct (update_rope_position_total settings now room)
      as (room' & ts & ->).
    simpl. eauto.
  - rewrite cleanup_room_eq. eauto.
  - unfold game_loop_room.
    destruct (get_room gm room_id) as [room|]; [|simpl; eauto].
    case_decide; [simpl; eauto|].
    destruct (update_rope_position_total settings now room)
      as (room' & ts & ->).
    simpl. destruct (GameRoom.start_time room'); [|simpl; eauto].
    destruct (Rge_dec _ _); simpl; eauto.
Qed.

Lemma run_total acts gm :
  stats_wf gm → ∃ gm', run settings acts gm = Ok gm'.
Proof.
  revert gm. induction acts as [|a acts IH]; intros gm Hwf; simpl; [eauto|].
  destruct (step_total a gm Hwf) as [gm1 Hstep]. rewrite Hstep. simpl.
  apply IH. by eapply step_stats_wf.
Qed.

Lemma reachable_bounds_wf gm :
  (0 <= Settings.win_threshold settings)%R →
  reachable settings gm → bounds_wf settings gm.
Proof.
  intros HT. induction 1 as [|a gm gm' _ IH _ Hstep].
  - intros ? ? H. simpl in H. by rewrite lookup_empty in H.
  - intros k r' Hk. eapply step_bounded_at; [done..| |done].
    intros r. apply IH.
Qed.
End Totality.

(** C8. In every state the registry can reach, [cleanup_room] returns
    normally, after which the room id is not in [rooms] and no session
    entry holds that room id; a second [cleanup_room] of the same id returns
    normally too and changes neither index. *)
Theorem cleanup_room_removes settings gm room_id :
  reachable settings gm →
  ∃ gm',
    cleanup_room room_id gm = Ok gm' ∧
    GameManager.rooms gm' !! room_id = None ∧
    (∀ s, GameManager.session_to_room gm' !! s ≠ Some room_id) ∧
    cleanup_room room_id gm' = Ok gm'.
Proof.
  intros Hreach. apply reachable_wf in Hreach as (_ & Hwf & _).
  rewrite cleanup_room_eq. eexists. split; [done|]. simpl. split_and!.
  - apply lookup_delete_eq.
  - intros s Hs. destruct (get_room gm room_id) as [room|] eqn:Hroom.
    + apply lookup_delete_Some in Hs as [Hn2 Hs].
      apply lookup_delete_Some in Hs as [Hn1 Hs].
      destruct (Hwf _ _ Hs) as (r & Hk & Hor).
      unfold get_room in Hroom. rewrite Hroom in Hk. injection Hk as ->.
      destruct Hor; congruence.
    + destruct (Hwf _ _ Hs) as (r & Hk & _).
      unfold get_room in Hroom. congruence.
  - rewrite cleanup_room_eq. unfold get_room. simpl.
    by rewrite lookup_delete_eq, delete_delete_eq.
Qed.

Lemma reachable_gm_waiting settings : reachable settings gm_waiting.
Proof.
  eapply (reachable_step settings (CreateRoom "r1" alice bob) init);
    [apply reachable_init|done..].
Qed.

Lemma reachable_gm_rematched settings : reachable settings gm_rematched.
Proof.
  eapply (reachable_step settings (CreateRoom "r2" alice carol) gm_waiting);
    [apply reachable_gm_waiting|done..].
Qed.

Lemma reachable_gm_active settings : reachable settings gm_active.
Proof.
  eapply (reachable_step settings (StartGame 0 "r1") gm_waiting);
    [apply reachable_gm_waiting|done..].
Qed.

Lemma cleanup_room_removes_witness :
  ∃ gm',
    cleanup_room "r1" gm_rematched = Ok gm' ∧
    GameManager.rooms gm' !! "r1" = None ∧
    (∀ s, GameManager.session_to_room gm' !! s ≠ Some "r1") ∧
    cleanup_room "r1" gm' = Ok gm'.
Proof.
  exact (cleanup_room_removes default_settings gm_rematched "r1"
           (reachable_gm_rematched default_settings)).
Defined.

(** ** Pull registration *)

(** C9. In every reachable state, [register_pull] on an ACTIVE room returns
    normally for every [player_id] and appends the event to the pull
    history; whenever [player_id] is not player 1's id (so also when it is
    neither player's id), it is player 2's [total_pulls] that goes up by one,
    and player 1's stats are untouched. *)
Theorem register_pull_unknown_side
    settings gm now room_id player_id username room :
  reachable settings gm →
  get_room gm room_id = Some room →
  GameRoom.status room = ACTIVE →
  ∃ gm' room',
    register_pull now room_id player_id username gm = Ok gm' ∧
    get_room gm' room_id = Some room' ∧
    GameRoom.pull_history room' =
      GameRoom.pull_history room ++
        [{| PullData.timestamp := now;
            PullData.username := username;
            PullData.player_id := player_id |}] ∧
    GameRoom.status room' = ACTIVE ∧
    (player_id ≠ Player.id (GameRoom.player1 room) →
     ∃ n,
       GameRoom.player2_stats room !! "total_pulls" = Some n ∧
       GameRoom.player2_stats room' =
         <["total_pulls" := (n + 1)%R]> (GameRoom.player2_stats room) ∧
       GameRoom.player1_stats room' = GameRoom.player1_stats room).
Proof.
  intros Hreach Hroom Hst.
  apply reachable_wf in Hreach as (_ & _ & Hwf).
  destruct (Hwf _ _ Hroom Hst) as [[n1 H1] [n2 H2]].
  unfold register_pull. rewrite Hroom.
  pass_status_guard Hst.
  unfold getitem. simpl. case_decide as Hp.
  - rewrite H1. simpl. eexists _, _. split; [done|].
    unfold get_room. simpl. rewrite lookup_insert_eq.
    split_and!; try done.
  - rewrite H2. simpl. eexists _, _. split; [done|].
    unfold get_room. simpl. rewrite lookup_insert_eq.
    split_and!; try done. intros _. by exists n2.
Qed.

Lemma register_pull_unknown_side_witness :
  ∃ gm' room',
    register_pull 5 "r1" "nobody" "viewer" gm_active = Ok gm' ∧
    get_room gm' "r1" = Some room' ∧
    GameRoom.pull_history room' =
      [{| PullData.timestamp := 5;
          PullData.username := "viewer";
          PullData.player_id := "nobody" |}] ∧
    GameRoom.player2_stats room' !! "total_pulls" = Some (0 + 1)%R ∧
    GameRoom.player1_stats room' !! "total_pulls" = Some 0%R.
Proof.
  destruct (register_pull_unknown_side default_settings gm_active 5 "r1"
              "nobody" "viewer" _ (reachable_gm_active default_settings)
              eq_refl eq_refl)
    as (gm' & room' & Hreg & Hget & Hhist & _ & Hside).
  destruct (Hside ltac:(done)) as (n & Hn & H2 & H1).
  exists gm', room'. split_and!; try done.
  - rewrite H2, lookup_insert_eq. injection Hn as <-. done.
  - by rewrite H1.
Defined.

(** ** The rope *)

(** C4. With a non-negative win threshold, [update_rope_position] always
    returns, and on an ACTIVE room it leaves the rope position within
    [[-win_threshold, win_threshold]], whatever the pull history (hence the
    pull powers) and whatever the position was; [start_game] puts the rope at
    0; and every schedule of engine steps run from a reachable state returns
    with every stored room's rope position within those bounds. *)
Theorem rope_position_bounded settings :
  (0 <= Settings.win_threshold settings)%R →
  (∀ now room,
     GameRoom.status room = ACTIVE →
     ∃ room' tasks,
       update_rope_position settings now room = Ok (room', tasks) ∧
       in_bounds settings (GameRoom.rope_position room')) ∧
  (∀ now gm room_id room,
     get_room gm room_id = Some room →
     GameRoom.status room = WAITING →
     ∃ room',
       get_room (start_game now room_id gm) room_id = Some room' ∧
       GameRoom.status room' = ACTIVE ∧
       GameRoom.rope_position room' = 0%R) ∧
  (∀ gm acts,
     reachable settings gm →
     ∃ gm',
       run settings acts gm = Ok gm' ∧
       ∀ room_id room,
         get_room gm' room_id = Some room →
         in_bounds settings (GameRoom.rope_position room)).
Proof.
  intros HT. split_and!.
  - intros now room Hst. rewrite update_rope_position_eq by done.
    eexists _, _. split; [done|]. simpl. by apply clamp_in_bounds.
  - intros now gm room_id room Hroom Hst. unfold start_game.
    rewrite Hroom. pass_status_guard Hst.
    unfold get_room. simpl. rewrite lookup_insert_eq. by eexists.
  - intros gm acts Hreach.
    destruct (run_total settings acts gm) as [gm' Hrun].
    { by apply reachable_wf in Hreach as (_ & _ & ?). }
    exists gm'. split; [done|]. intros room_id room Hroom.
    eapply run_bounded_at; [done..| |done].
    intros r. by apply reachable_bounds_wf.
Qed.

Lemma rope_position_bounded_witness :
  ∃ gm',
    run default_settings
      [RegisterPull 1 "r1" "p1" "v1"; UpdateRopePosition 2 "r1";
       GameLoopRoom 3 "r1"] gm_active = Ok gm' ∧
    ∀ room_id room,
      get_room gm' room_id = Some room →
      in_bounds default_settings (GameRoom.rope_position room).
Proof.
  assert (HT : (0 <= Settings.win_threshold default_settings)%R)
    by (simpl; lra).
  exact (proj2 (proj2 (rope_position_bounded default_settings HT))
           gm_active _ (reachable_gm_active default_settings)).
Defined.

(** ** Engagement and pull power *)

Lemma ln_10_pos : (0 < ln 10)%R.
Proof. rewrite <- ln_1. apply ln_increasing; lra. Qed.

Lemma log10_1 : log10 1 = 0%R.
Proof. unfold log10. rewrite ln_1. field. pose proof ln_10_pos. lra. Qed.

Lemma log10_increasing x y : (0 < x)%R → (x < y)%R → (log10 x < log10 y)%R.
Proof.
  intros Hx Hxy. unfold log10. pose proof ln_10_pos.
  apply Rmult_lt_compat_r; [by apply Rinv_0_lt_compat|].
  by apply ln_increasing.
Qed.

Lemma log10_nonneg x : (1 <= x)%R → (0 <= log10 x)%R.
Proof.
  intros [Hx| <-].
  - rewrite <- log10_1. left. apply log10_increasing; lra.
  - rewrite log10_1. lra.
Qed.

(** [p / q < log10 x] as soon as [10 ^ p < x ^ q]. *)
Lemma log10_lower (x : R) (p q : nat) :
  (0 < x)%R → (0 < q)%nat → (10 ^ p < x ^ q)%R →
  (INR p / INR q < log10 x)%R.
Proof.
  intros Hx Hq Hpow. unfold log10. pose proof ln_10_pos as H10.
  assert (HQ : (0 < INR q)%R) by (apply lt_0_INR; lia).
  apply ln_increasing in Hpow; [|apply pow_lt; lra].
  rewrite !ln_pow in Hpow by lra.
  apply Rmult_lt_reg_r with (INR q * ln 10)%R; [nra|].
  field_simplify; [|lra..]. nra.
Qed.

(** [log10 x < p / q] as soon as [x ^ q < 10 ^ p]. *)
Lemma log10_upper (x : R) (p q : nat) :
  (0 < x)%R → (0 < q)%nat → (x ^ q < 10 ^ p)%R →
  (log10 x < INR p / INR q)%R.
Proof.
  intros Hx Hq Hpow. unfold log10. pose proof ln_10_pos as H10.
  assert (HQ : (0 < INR q)%R) by (apply lt_0_INR; lia).
  apply ln_increasing in Hpow; [|apply pow_lt; lra].
  rewrite !ln_pow in Hpow by lra.
  apply Rmult_lt_reg_r with (INR q * ln 10)%R; [nra|].
  field_simplify; [|lra..]. nra.
Qed.

Lemma log10_4_bounds : (301 / 500 < log10 4 < 53 / 88)%R.
Proof.
  split.
  - replace (301 / 500)%R with (INR 301 / INR 500)%R
      by (rewrite !INR_IZR_INZ; simpl; reflexivity).
    apply log10_lower; [lra|lia|].
    rewrite !pow_IZR. apply IZR_lt. reflexivity.
  - replace (53 / 88)%R with (INR 53 / INR 88)%R
      by (rewrite !INR_IZR_INZ; simpl; reflexivity).
    apply log10_upper; [lra|lia|].
    rewrite !pow_IZR. apply IZR_lt. reflexivity.
Qed.

Lemma viewers_pos player :
  (1 <= IZR (Z.max (Player.viewer_count player) 1))%R.
Proof. apply IZR_le. lia. Qed.

Lemma engagement_nonneg unique player : (0 <= engagement unique player)%R.
Proof.
  unfold engagement. pose proof (viewers_pos player). pose proof (pos_INR unique).
  apply Rmult_le_pos; [done|]. left. apply Rinv_0_lt_compat. lra.
Qed.

Lemma engagement_increasing n m player :
  n < m → (engagement n player < engagement m player)%R.
Proof.
  intros Hnm. unfold engagement. pose proof (viewers_pos player).
  apply Rmult_lt_compat_r; [apply Rinv_0_lt_compat; lra|by apply lt_INR].
Qed.

Lemma pull_power_0 player base :
  pull_power (engagement 0 player) base 0 = 0%R.
Proof. unfold pull_power. simpl. rewrite log10_1. ring. Qed.

(** Without rounding, the value of the formula is strictly increasing in
    the number of unique pullers, for a positive base strength and any
    viewer count. *)
Lemma pull_power_real_increasing player base n m :
  (0 < base)%R →
  n < m →
  (pull_power (engagement n player) base n <
   pull_power (engagement m player) base m)%R.
Proof.
  intros Hbase Hnm. unfold pull_power.
  pose proof (engagement_nonneg n player) as Hen.
  pose proof (engagement_increasing n m player Hnm) as Hem.
  assert (Hln : (0 <= log10 (INR (n + 1)))%R).
  { apply log10_nonneg. rewrite plus_INR. simpl. pose proof (pos_INR n). lra. }
  assert (Hlm : (log10 (INR (n + 1)) < log10 (INR (m + 1)))%R).
  { apply log10_increasing; [apply lt_0_INR; lia|apply lt_INR; lia]. }
  apply Rle_lt_trans
    with (engagement m player * base * log10 (INR (n + 1)))%R.
  - apply Rmult_le_compat_r; [done|].
    apply Rmult_le_compat_r; lra.
  - apply Rmult_lt_compat_l; [|done].
    apply Rmult_lt_0_compat; lra.
Qed.

(** ** The pull power in binary64 *)

Section Binary64.
Local Open Scope R_scope.

Lemma exp2_pos e : 0 < exp2 e.
Proof. apply powerRZ_lt. lra. Qed.

Lemma exp2_add a b : exp2 (a + b) = exp2 a * exp2 b.
Proof. apply powerRZ_add. lra. Qed.

Lemma exp2_IZR k : (0 ≤ k)%Z → exp2 k = IZR (2 ^ k).
Proof.
  intros Hk. unfold exp2. rewrite <- (Z2Nat.id k Hk).
  by rewrite <- pow_powerRZ, pow_IZR.
Qed.

Lemma exp2_ge_1 k : (0 ≤ k)%Z → 1 <= exp2 k.
Proof.
  intros Hk. rewrite exp2_IZR by done. apply IZR_le.
  change 1%Z with (Z.succ 0). apply Z.le_succ_l.
  apply Z.pow_pos_nonneg; lia.
Qed.

Lemma exp2_le a b : (a ≤ b)%Z → exp2 a <= exp2 b.
Proof.
  intros Hab. pose proof (exp2_pos a).
  assert (1 <= exp2 (b - a)) by (apply exp2_ge_1; lia).
  replace b with (a + (b - a))%Z by lia. rewrite exp2_add. nra.
Qed.

Lemma exp2_lt_inv a b : exp2 a < exp2 b → (a < b)%Z.
Proof.
  intros Hlt. destruct (Z_lt_le_dec a b) as [|Hle]; [done|].
  apply exp2_le in Hle. lra.
Qed.

Lemma exp2_cancel e : exp2 (- e) * exp2 e = 1.
Proof. rewrite <- exp2_add. by replace (- e + e)%Z with 0%Z by lia. Qed.

Lemma ln_2_pos : 0 < ln 2.
Proof. pose proof ln_lt_2. lra. Qed.

Lemma ln_exp2 e : ln (exp2 e) = IZR e * ln 2.
Proof. unfold exp2. rewrite powerRZ_Rpower by lra. apply ln_Rpower. Qed.

Lemma mag_bounds x : 0 < x → exp2 (mag x - 1) <= x < exp2 (mag x).
Proof.
  intros Hx. unfold mag. rewrite Rabs_pos_eq by lra.
  pose proof (Zfloor_bound (ln x / ln 2)) as [Hlo Hhi].
  pose proof ln_2_pos as H2.
  set (f := Zfloor (ln x / ln 2)) in *.
  replace (f + 1 - 1)%Z with f by lia.
  assert (Hlo' : IZR f * ln 2 <= ln x).
  { apply Rmult_le_compat_r with (r := ln 2) in Hlo; [|lra].
    replace (ln x / ln 2 * ln 2) with (ln x) in Hlo by (field; lra). done. }
  assert (Hhi' : ln x < IZR (f + 1) * ln 2).
  { rewrite plus_IZR.
    apply Rmult_lt_compat_r with (r := ln 2) in Hhi; [|lra].
    replace (ln x / ln 2 * ln 2) with (ln x) in Hhi by (field; lra). done. }
  split.
  - destruct (Rle_lt_dec (exp2 f) x) as [|Hlt]; [done|].
    apply ln_increasing in Hlt; [|done]. rewrite ln_exp2 in Hlt. lra.
  - apply ln_lt_inv; [done|apply exp2_pos|]. by rewrite ln_exp2.
Qed.



Lemma mag_unique x k : exp2 (k - 1) <= x < exp2 k → mag x = k.
Proof.
  intros [Hlo Hhi].
  assert (Hx : 0 < x) by (pose proof (exp2_pos (k - 1)); lra).
  destruct (mag_bounds x Hx) as [Hlo' Hhi'].
  assert (H1 : exp2 (k - 1) < exp2 (mag x)) by lra.
  assert (H2 : exp2 (mag x - 1) < exp2 k) by lra.
  apply exp2_lt_inv in H1, H2. lia.
Qed.



Lemma nearest_even_close y k : Rabs (y - IZR k) < 1 / 2 → nearest_even y = k.
Proof.
  intros Hy. apply Rabs_def2 in Hy as [Hhi Hlo]. unfold nearest_even.
  destruct (Rle_lt_dec (IZR k) y) as [Hle|Hlt].
  - rewrite (Zfloor_eq k) by lra.
    destruct (Rlt_dec _ _) as [|H]; [done|]. exfalso. apply H. lra.
  - rewrite (Zfloor_eq (k - 1)) by (rewrite minus_IZR; lra).
    rewrite minus_IZR.
    destruct (Rlt_dec _ _) as [H|_]; [exfalso; lra|].
    destruct (Rlt_dec _ _) as [_|H]; [lia|]. exfalso. apply H. lra.
Qed.








(** The rate of three unique pullers among ten viewers is the float
    [0.3], that is [5404319552844595 / 2 ^ 54]. *)
Lemma engagement64_three_tenths :
  engagement64 3 alice = 5404319552844595 / 18014398509481984.
Proof.
  unfold engagement64, engagement, round64.
  change (Z.max (Player.viewer_count alice) 1) with 10%Z.
  replace (INR 3) with 3 by (simpl; lra).
  assert (H54 : exp2 54 = 18014398509481984).
  { rewrite exp2_IZR by lia. reflexivity. }
  assert (Hm : mag (3 / 10) = (-1)%Z).
  { apply mag_unique. unfold exp2. simpl. lra. }
  unfold last_place. rewrite Hm.
  change (Z.max (-1 - 53) (-1074)) with (-54)%Z.
  change (- -54)%Z with 54%Z.
  assert (Hinv : exp2 (-54) = / 18014398509481984).
  { pose proof (exp2_cancel 54) as Hc. rewrite H54 in Hc.
    change (Z.opp 54) with (-54)%Z in Hc.
    apply Rmult_eq_reg_r with 18014398509481984; [|lra].
    rewrite Hc. field. }
  rewrite H54, Hinv.
  rewrite (nearest_even_close _ 5404319552844595).
  - reflexivity.
  - apply Rabs_def1; lra.
Qed.







Section PullPower.
Variable log10_of : Z → R.
Hypothesis log10_of_1 : log10_of 1 = 0.
Hypothesis log10_of_le : ∀ a b, (1 ≤ a ≤ b)%Z → log10_of a <= log10_of b.




End PullPower.
End Binary64.



Lemma unique_pullers_spec now room player (names : list string) :
  NoDup names →
  (∀ u, u ∈ names ↔ contributes now room player u) →
  unique_pullers (pulls_of player (recent_pulls now room)) = length names.
Proof.
  intros Hnd Hiff. unfold unique_pullers.
  rewrite <- (size_list_to_set (C := gset string) names Hnd).
  f_equal. apply set_eq. intros u.
  rewrite !elem_of_list_to_set, Hiff, list_elem_of_fmap.
  unfold contributes, pulls_of, recent_pulls, window. split.
  - intros (p & -> & Hp).
    apply list_elem_of_filter in Hp as [Hside Hp].
    apply list_elem_of_filter in Hp as [Hrecent Hp].
    by exists p.
  - intros (p & Hp & Hrecent & Hside & <-).
    exists p. split; [done|].
    apply list_elem_of_filter. split; [done|].
    by apply list_elem_of_filter.
Qed.

Lemma power_of_three (power : R) :
  power = (3 / 10 * 1 * log10 4)%R →
  (Rabs (power - 1806 / 10000) < 1 / 10000)%R.
Proof.
  intros ->. pose proof log10_4_bounds as [Hlo Hhi].
  apply Rabs_def1; lra.
Qed.

(** C5. After [calculate_engagement_stats], for each side: if [names] lists
    without repetition the viewers who sent a pull event for that side
    within the last 30 seconds, then the side's [unique_pullers] is the
    length of [names], its [engagement_rate] is that number divided by
    [max(viewer_count, 1)], and its [pull_power] is
    [engagement_rate * base_pull_strength * log10(unique_pullers + 1)].
    With a viewer count of 10, a base strength of 1 and three such viewers,
    the rate is 3/10 and the power is [0.3 * 1.0 * log10 4], within 1e-4 of
    0.1806. *)
Theorem engagement_stats_spec settings now room :
  let room' := calculate_engagement_stats settings now room in
  let base := Settings.base_pull_strength settings in
  (∀ names,
     NoDup names →
     (∀ u, u ∈ names ↔ contributes now room (GameRoom.player1 room) u) →
     let viewers := Player.viewer_count (GameRoom.player1 room) in
     let rate := (INR (length names) / IZR (Z.max viewers 1))%R in
     let power := (rate * base * log10 (INR (length names + 1)))%R in
     GameRoom.player1_stats room' !! "unique_pullers"
       = Some (INR (length names)) ∧
     GameRoom.player1_stats room' !! "engagement_rate" = Some rate ∧
     GameRoom.player1_stats room' !! "pull_power" = Some power ∧
     (viewers = 10%Z → base = 1%R → length names = 3 →
      rate = (3 / 10)%R ∧
      power = (3 / 10 * 1 * log10 4)%R ∧
      (Rabs (power - 1806 / 10000) < 1 / 10000)%R)) ∧
  (∀ names,
     NoDup names →
     (∀ u, u ∈ names ↔ contributes now room (GameRoom.player2 room) u) →
     let viewers := Player.viewer_count (GameRoom.player2 room) in
     let rate := (INR (length names) / IZR (Z.max viewers 1))%R in
     let power := (rate * base * log10 (INR (length names + 1)))%R in
     GameRoom.player2_stats room' !! "unique_pullers"
       = Some (INR (length names)) ∧
     GameRoom.player2_stats room' !! "engagement_rate" = Some rate ∧
     GameRoom.player2_stats room' !! "pull_power" = Some power ∧
     (viewers = 10%Z → base = 1%R → length names = 3 →
      rate = (3 / 10)%R ∧
      power = (3 / 10 * 1 * log10 4)%R ∧
      (Rabs (power - 1806 / 10000) < 1 / 10000)%R)).
Proof.
  assert (Hconcrete : ∀ (viewers : Z) (base : R) (n : nat),
    viewers = 10%Z → base = 1%R → n = 3 →
    let rate := (INR n / IZR (Z.max viewers 1))%R in
    let power := (rate * base * log10 (INR (n + 1)))%R in
    rate = (3 / 10)%R ∧ power = (3 / 10 * 1 * log10 4)%R ∧
    (Rabs (power - 1806 / 10000) < 1 / 10000)%R).
  { intros viewers base n -> -> -> rate power.
    assert (Hrate : rate = (3 / 10)%R).
    { unfold rate. change (Z.max 10 1) with 10%Z. simpl. lra. }
    assert (Hpower : power = (3 / 10 * 1 * log10 4)%R).
    { unfold power. rewrite Hrate. do 2 f_equal. simpl. lra. }
    split_and!; [done..|by apply power_of_three]. }
  simpl. split; intros names Hnd Hiff; simpl;
    rewrite (unique_pullers_spec now room _ names Hnd Hiff);
    rewrite lookup_insert_eq;
    rewrite (lookup_insert_ne _ "pull_power" "engagement_rate") by done;
    rewrite lookup_insert_eq;
    rewrite (lookup_insert_ne _ "pull_power" "unique_pullers") by done;
    rewrite (lookup_insert_ne _ "engagement_rate" "unique_pullers") by done;
    rewrite lookup_insert_eq;
    (split_and!; [done..|apply Hconcrete]).
Qed.

Lemma room_pulled_contributors u :
  u ∈ ["v1"; "v2"; "v3"] ↔
  contributes (10 * 1000000) room_pulled (GameRoom.player1 room_pulled) u.
Proof.
  unfold contributes. split.
  - intros Hu. repeat (apply elem_of_cons in Hu as [->|Hu]).
    + exists (pull_at 1 "v1" "p1"). split_and!; [set_solver|done..].
    + exists (pull_at 2 "v2" "p1"). split_and!; [set_solver|done..].
    + exists (pull_at 4 "v3" "p1"). split_and!; [set_solver|done..].
    + by apply elem_of_nil in Hu.
  - intros (p & Hp & Hrecent & Hside & <-). simpl in Hp.
    repeat (apply elem_of_cons in Hp as [->|Hp]);
      try (by apply elem_of_nil in Hp); simpl in *;
      try lia; try discriminate; set_solver.
Qed.

Lemma engagement_stats_spec_witness :
  let room' :=
    calculate_engagement_stats default_settings (10 * 1000000) room_pulled in
  GameRoom.player1_stats room' !! "unique_pullers" = Some (INR 3) ∧
  GameRoom.player1_stats room' !! "engagement_rate" = Some (3 / 10)%R ∧
  ∃ power,
    GameRoom.player1_stats room' !! "pull_power" = Some power ∧
    (Rabs (power - 1806 / 10000) < 1 / 10000)%R.
Proof.
  assert (Hnd : NoDup ["v1"; "v2"; "v3"]).
  { repeat (apply NoDup_cons; split); try apply NoDup_nil_2;
      rewrite ?not_elem_of_cons; split_and?; try done; apply not_elem_of_nil. }
  destruct (proj1 (engagement_stats_spec default_settings (10 * 1000000)
                     room_pulled) _ Hnd room_pulled_contributors)
    as (Hu & Hr & Hp & Hc).
  destruct (Hc eq_refl eq_refl eq_refl) as (Hrate & _ & Hclose).
  split_and!.
  - exact Hu.
  - rewrite Hr. f_equal. exact Hrate.
  - eexists. split; [exact Hp|exact Hclose].
Defined.

(** ** Ending a game *)

Lemma end_game_eq settings now room_id gm room :
  get_room gm room_id = Some room →
  get_room (end_game settings now room_id gm) room_id =
    Some (determine_winner settings
            (set_end_time (Some now) (set_status FINISHED room))).
Proof.
  intros Hroom. unfold end_game. rewrite Hroom.
  unfold get_room. simpl. by rewrite lookup_insert_eq.
Qed.

Lemma handle_player_disconnect_eq settings now room_id session_id gm room :
  get_room gm room_id = Some room →
  get_room (handle_player_disconnect settings now room_id session_id gm)
    room_id =
    Some (determine_winner settings
            (set_end_time (Some now)
               (set_status FINISHED (forfeit session_id room)))).
Proof.
  intros Hroom. unfold handle_player_disconnect. rewrite Hroom.
  apply end_game_eq. unfold get_room. simpl. by rewrite lookup_insert_eq.
Qed.

(** Whatever the status was, [end_game] writes FINISHED. *)
Lemma end_game_status settings now room_id gm room :
  get_room gm room_id = Some room →
  GameRoom.status <$> get_room (end_game settings now room_id gm) room_id =
    Some FINISHED.
Proof.
  intros Hroom. rewrite (end_game_eq _ _ _ _ _ Hroom). simpl.
  by rewrite determine_winner_status.
Qed.

(** A disconnect never leaves the room ABANDONED. *)
Lemma handle_player_disconnect_status settings now room_id session_id gm room :
  get_room gm room_id = Some room →
  GameRoom.status <$>
    get_room (handle_player_disconnect settings now room_id session_id gm)
      room_id = Some FINISHED.
Proof.
  intros Hroom. rewrite (handle_player_disconnect_eq _ _ _ _ _ _ Hroom).
  simpl. by rewrite determine_winner_status.
Qed.

(** What does hold of the status: no step moves it backward, and FINISHED
    is never left. *)
Lemma status_forward settings a gm gm' room_id room room' :
  (∀ p1 p2, a ≠ CreateRoom room_id p1 p2) →
  step settings a gm = Ok gm' →
  get_room gm room_id = Some room →
  get_room gm' room_id = Some room' →
  status_rank (GameRoom.status room) ≤ status_rank (GameRoom.status room') ∧
  (GameRoom.status room = FINISHED → GameRoom.status room' = FINISHED).
Proof.
  intros Ha Hstep Hroom Hroom'.
  destruct (step_room_lookup _ _ _ _ _ _ Hstep Hroom')
    as [(r & Hr & Ht)|(p1 & p2 & -> & _)]; [|by edestruct Ha].
  unfold get_room in Hroom. rewrite Hroom in Hr. injection Hr as <-.
  by destruct Ht as (_ & _ & _ & ? & ? & _).
Qed.

Lemma step_no_new_room settings a gm gm' room_id :
  (∀ p1 p2, a ≠ CreateRoom room_id p1 p2) →
  step settings a gm = Ok gm' →
  get_room gm room_id = None →
  get_room gm' room_id = None.
Proof.
  intros Ha Hstep Hnone.
  destruct (get_room gm' room_id) as [room'|] eqn:Hroom'; [|done].
  destruct (step_room_lookup _ _ _ _ _ _ Hstep Hroom')
    as [(r & Hr & _)|(p1 & p2 & -> & _)]; [|by edestruct Ha].
  unfold get_room in Hnone. congruence.
Qed.

(** X23. Along any schedule that does not create a room under the same id
    again, the status of a stored room never moves backward in the order
    WAITING, ACTIVE, then FINISHED or ABANDONED, and a FINISHED room stays
    FINISHED. *)
Lemma run_status_forward settings acts gm gm' room_id room room' :
  Forall (λ a, ∀ p1 p2, a ≠ CreateRoom room_id p1 p2) acts →
  run settings acts gm = Ok gm' →
  get_room gm room_id = Some room →
  get_room gm' room_id = Some room' →
  status_rank (GameRoom.status room) ≤ status_rank (GameRoom.status room') ∧
  (GameRoom.status room = FINISHED → GameRoom.status room' = FINISHED).
Proof.
  intros Hacts. revert gm room.
  induction Hacts as [|a acts Ha Hacts IH]; intros gm room; simpl.
  - intros [= <-] Hroom Hroom'. rewrite Hroom in Hroom'.
    injection Hroom' as <-. split; [lia|done].
  - destruct (step settings a gm) as [gm1|] eqn:Hstep; simpl; [|done].
    intros Hrun Hroom Hroom'.
    destruct (get_room gm1 room_id) as [room1|] eqn:Hroom1.
    + destruct (status_forward _ _ _ _ _ _ _ Ha Hstep Hroom Hroom1) as [H1 H2].
      destruct (IH _ _ Hrun Hroom1 Hroom') as [H3 H4].
      split; [lia|auto].
    + assert (Hnone : get_room gm' room_id = None); [|congruence].
      clear IH Hroom Hroom' Hstep Ha. revert gm1 Hrun Hroom1.
      induction Hacts as [|b acts Hb _ IH]; intros gm1; simpl.
      * by intros [= <-].
      * destruct (step settings b gm1) as [gm2|] eqn:Hstep; simpl; [|done].
        intros Hrun Hnone. eapply IH; [done|].
        by eapply step_no_new_room.
Qed.

(** C1. The status is not absorbing at ABANDONED.  Alice disconnects from
    the ACTIVE room ["r1"]: the disconnect handler marks the room ABANDONED
    and then calls [end_game], which overwrites the status with FINISHED. *)
Theorem abandoned_overwritten :
  ∃ room,
    get_room gm_active "r1" = Some room ∧
    GameRoom.status room = ACTIVE ∧
    GameRoom.status (forfeit "sa" room) = ABANDONED ∧
    let gm_abandoned := put_room "r1" (forfeit "sa" room) gm_active in
    GameRoom.status <$> get_room gm_abandoned "r1" = Some ABANDONED ∧
    GameRoom.status <$>
      get_room (end_game default_settings 7 "r1" gm_abandoned) "r1"
      = Some FINISHED ∧
    handle_player_disconnect default_settings 7 "r1" "sa" gm_active =
      end_game default_settings 7 "r1" gm_abandoned.
Proof.
  eexists. split; [reflexivity|].
  split; [reflexivity|]. split; [reflexivity|].
  intros gm_abandoned. split; [reflexivity|]. split; [|reflexivity].
  eapply end_game_status. reflexivity.
Qed.

(** C2. Alice disconnects from the ACTIVE room ["r1"]: when the handler
    reaches its suspension point the winner is Bob but the status is
    FINISHED, not ABANDONED; when it completes, the room is gone from the
    registry (and was FINISHED until then). *)
Theorem disconnect_leaves_finished :
  let gm' := handle_player_disconnect default_settings 7 "r1" "sa" gm_active in
  GameRoom.status <$> get_room gm_active "r1" = Some ACTIVE ∧
  GameRoom.status <$> get_room gm' "r1" = Some FINISHED ∧
  GameRoom.winner_id <$> get_room gm' "r1" = Some (Some (Player.id bob)) ∧
  ∃ gm'', cleanup_room "r1" gm' = Ok gm'' ∧ get_room gm'' "r1" = None.
Proof.
  simpl. split_and!.
  - reflexivity.
  - eapply handle_player_disconnect_status. reflexivity.
  - erewrite handle_player_disconnect_eq by reflexivity.
    simpl. unfold determine_winner. simpl.
    destruct (Rle_dec _ _) as [H|_]; [exfalso; lra|].
    destruct (Rge_dec _ _) as [H|_]; [exfalso; lra|]. reflexivity.
  - rewrite cleanup_room_eq. eexists. split; [done|].
    unfold get_room. simpl. apply lookup_delete_eq.
Qed.

(** The same overwrite can hand the win to the player who left: with the
    rope already at Alice's end, Alice disconnects and is declared the
    winner. *)
Lemma disconnect_winner_overridden :
  let gm' := handle_player_disconnect default_settings 7 "r1" "sa" gm_won in
  GameRoom.winner_id <$> get_room gm' "r1" = Some (Some (Player.id alice)).
Proof.
  simpl. erewrite handle_player_disconnect_eq by reflexivity.
  simpl. unfold determine_winner. simpl.
  destruct (Rle_dec _ _) as [H|_]; [exfalso; lra|].
  destruct (Rge_dec _ _) as [_|H]; [reflexivity|exfalso; lra].
Qed.

(** ** The time limit *)

(** C3, as amended.  When the game loop ends an ACTIVE room because the
    elapsed time has reached the game duration, the room becomes FINISHED and
    the winner is decided by the thresholds, not by the sign: player 2 if the
    rope position (as just updated by the tick) is at most [-win_threshold],
    player 1 if it is at least [win_threshold], and otherwise [winner_id] is
    left as it was. *)
Theorem timeout_winner_by_threshold settings now room_id gm room start :
  get_room gm room_id = Some room →
  GameRoom.id room = room_id →
  GameRoom.status room = ACTIVE →
  GameRoom.start_time room = Some start →
  (total_seconds (now - start) >= IZR (Settings.game_duration settings))%R →
  ∃ gm' tasks room',
    game_loop_room settings now room_id gm = Ok (gm', tasks) ∧
    get_room gm' room_id = Some room' ∧
    GameRoom.status room' = FINISHED ∧
    let rope := GameRoom.rope_position room' in
    let threshold := Settings.win_threshold settings in
    ((rope <= - threshold)%R →
     GameRoom.winner_id room' = Some (Player.id (GameRoom.player2 room))) ∧
    ((- threshold < rope)%R → (rope >= threshold)%R →
     GameRoom.winner_id room' = Some (Player.id (GameRoom.player1 room))) ∧
    ((- threshold < rope)%R → (rope < threshold)%R →
     GameRoom.winner_id room' = GameRoom.winner_id room).
Proof.
  intros Hroom Hid Hst Hstart Helapsed.
  unfold game_loop_room. rewrite Hroom.
  pass_status_guard Hst.
  rewrite update_rope_position_eq by done. simpl. rewrite Hstart.
  destruct (Rge_dec _ _) as [_|Hn]; [|done].
  rewrite Hid. eexists _, _, _. split; [done|].
  split.
  { apply end_game_eq. unfold get_room. simpl. apply lookup_insert_eq. }
  rewrite determine_winner_status. split; [done|].
  unfold determine_winner. simpl.
  destruct (Rle_dec _ _) as [Hle|Hle]; [|destruct (Rge_dec _ _) as [Hge|Hge]];
    simpl; split_and!; intros; try done; lra.
Qed.

Lemma timeout_winner_by_threshold_witness :
  ∃ gm' tasks room',
    game_loop_room default_settings (120 * 1000000) "r1" gm_ahead
      = Ok (gm', tasks) ∧
    get_room gm' "r1" = Some room' ∧
    GameRoom.status room' = FINISHED ∧
    let rope := GameRoom.rope_position room' in
    ((rope <= - 100)%R → GameRoom.winner_id room' = Some "p2") ∧
    ((- 100 < rope)%R → (rope >= 100)%R →
     GameRoom.winner_id room' = Some "p1") ∧
    ((- 100 < rope)%R → (rope < 100)%R → GameRoom.winner_id room' = None).
Proof.
  apply (timeout_winner_by_threshold default_settings (120 * 1000000) "r1"
           gm_ahead room_ahead 0%Z); try reflexivity.
  unfold total_seconds. change (120 * 1000000 - 0)%Z with 120000000%Z.
  simpl. lra.
Defined.

Lemma room_ahead_tick :
  update_rope_position default_settings (120 * 1000000) room_ahead =
    Ok (set_rope_position 5
          (calculate_engagement_stats default_settings (120 * 1000000)
             room_ahead), []).
Proof.
  rewrite update_rope_position_eq by reflexivity.
  assert (Hu1 : unique_pullers
    (pulls_of (GameRoom.player1 room_ahead)
       (recent_pulls (120 * 1000000) room_ahead)) = 0) by reflexivity.
  assert (Hu2 : unique_pullers
    (pulls_of (GameRoom.player2 room_ahead)
       (recent_pulls (120 * 1000000) room_ahead)) = 0) by reflexivity.
  cbv zeta. rewrite Hu1, Hu2.
  rewrite !pull_power_0.
  assert (Hrope : py_max (- Settings.win_threshold default_settings)
            (py_min (Settings.win_threshold default_settings)
               (GameRoom.rope_position room_ahead + (0 - 0) * (5 / 10)))
          = 5%R).
  { unfold py_max, py_min. simpl.
    repeat destruct (Rlt_dec _ _); lra. }
  rewrite Hrope. destruct (Rge_dec _ _) as [H|_]; [|done].
  exfalso. simpl in H. rewrite Rabs_pos_eq in H; lra.
Qed.

(** C3 fails as stated: room ["r1"] reaches the time limit with Alice
    (player 1) ahead, the rope at 5 > 0; the game loop ends the game and no
    winner is recorded. *)
Lemma timeout_positive_rope_no_winner :
  ∃ gm' room',
    get_room gm_ahead "r1" = Some room_ahead ∧
    GameRoom.status room_ahead = ACTIVE ∧
    game_loop_room default_settings (120 * 1000000) "r1" gm_ahead
      = Ok (gm', []) ∧
    get_room gm' "r1" = Some room' ∧
    GameRoom.status room' = FINISHED ∧
    GameRoom.rope_position room' = 5%R ∧
    (0 < GameRoom.rope_position room')%R ∧
    GameRoom.winner_id room' = None ∧
    GameRoom.winner_id room' ≠ Some (Player.id (GameRoom.player1 room')).
Proof.
  assert (Hloop : game_loop_room default_settings (120 * 1000000) "r1" gm_ahead =
    Ok (end_game default_settings (120 * 1000000) "r1"
          (put_room "r1"
             (set_rope_position 5
                (calculate_engagement_stats default_settings (120 * 1000000)
                   room_ahead)) gm_ahead), [])).
  { unfold game_loop_room.
    change (get_room gm_ahead "r1") with (Some room_ahead). cbv beta iota.
    rewrite decide_False by (intros H; by apply H).
    rewrite room_ahead_tick. simpl.
    destruct (Rge_dec _ _) as [_|H]; [done|].
    exfalso. apply H. unfold total_seconds.
    change (120 * 1000000 - 0)%Z with 120000000%Z. simpl. lra. }
  rewrite Hloop. eexists _, _.
  split; [reflexivity|]. split; [reflexivity|]. split; [reflexivity|].
  split.
  { apply end_game_eq. unfold get_room. simpl. apply lookup_insert_eq. }
  rewrite determine_winner_status.
  assert (Hw : ∀ r, GameRoom.rope_position r = 5%R →
    determine_winner default_settings r = r).
  { intros r Hr. unfold determine_winner. rewrite Hr. simpl.
    destruct (Rle_dec _ _) as [H|_]; [exfalso; lra|].
    destruct (Rge_dec _ _) as [H|_]; [exfalso; lra|]. done. }
  rewrite Hw by reflexivity. simpl.
  split_and!; try done. lra.
Qed.

(** * Further properties *)

(** ** How a step changes a room *)

Section Evolution.
Variable settings : Settings.t.

Lemma put_room_lookup room_id r1 gm k r' :
  GameManager.rooms (put_room room_id r1 gm) !! k = Some r' →
  (k = room_id ∧ r' = r1) ∨ (k ≠ room_id ∧ GameManager.rooms gm !! k = Some r').
Proof.
  simpl. destruct (decide (room_id = k)) as [->|Hne].
  - rewrite lookup_insert_eq. intros [= <-]. by left.
  - rewrite lookup_insert_ne by done. intros Hk. right. split; [congruence|done].
Qed.

Lemma start_game_room now room_id gm room :
  get_room gm room_id = Some room →
  GameRoom.status room = WAITING →
  start_game now room_id gm = put_room room_id (started now room) gm.
Proof.
  intros Hroom Hst. unfold start_game. rewrite Hroom.
  by pass_status_guard Hst.
Qed.

Lemma start_game_skip now room_id gm room :
  get_room gm room_id = Some room →
  GameRoom.status room ≠ WAITING →
  start_game now room_id gm = gm.
Proof.
  intros Hroom Hst. unfold start_game. rewrite Hroom.
  by rewrite decide_True.
Qed.

Lemma register_pull_room now room_id player_id username gm room :
  get_room gm room_id = Some room →
  GameRoom.status room = ACTIVE →
  register_pull now room_id player_id username gm =
    (room' ← pulled now player_id username room;
     Ok (put_room room_id room' gm)).
Proof.
  intros Hroom Hst. unfold register_pull, pulled. rewrite Hroom.
  pass_status_guard Hst. simpl.
  case_decide; destruct (getitem _ _); done.
Qed.

Lemma register_pull_skip now room_id player_id username gm room :
  get_room gm room_id = Some room →
  GameRoom.status room ≠ ACTIVE →
  register_pull now room_id player_id username gm = Ok gm.
Proof.
  intros Hroom Hst. unfold register_pull. rewrite Hroom.
  by rewrite decide_True.
Qed.

Lemma end_game_room now room_id gm room :
  get_room gm room_id = Some room →
  end_game settings now room_id gm =
    put_room room_id (finished settings now room) gm.
Proof. intros Hroom. unfold end_game. by rewrite Hroom. Qed.

Lemma handle_player_disconnect_room now room_id session_id gm room :
  get_room gm room_id = Some room →
  handle_player_disconnect settings now room_id session_id gm =
    put_room room_id (finished settings now (forfeit session_id room)) gm.
Proof.
  intros Hroom. unfold handle_player_disconnect. rewrite Hroom.
  rewrite (end_game_room _ _ _ (forfeit session_id room)).
  - unfold put_room. simpl. by rewrite insert_insert_eq.
  - unfold get_room. simpl. apply lookup_insert_eq.
Qed.

Lemma put_same_room room_id room gm :
  get_room gm room_id = Some room → put_room room_id room gm = gm.
Proof.
  intros Hroom. destruct gm as [rooms sessions]. unfold put_room. simpl.
  f_equal. by apply insert_id.
Qed.

(** Where a room found after a step comes from, mutation by mutation. *)
Lemma step_room_steps a gm gm' k r' :
  step settings a gm = Ok gm' →
  GameManager.rooms gm' !! k = Some r' →
  (∃ r, GameManager.rooms gm !! k = Some r ∧ rtc (room_step settings) r r') ∨
  (∃ p1 p2, a = CreateRoom k p1 p2 ∧ r' = fresh_room k p1 p2).
Proof.
  assert (Hput : ∀ room_id r r1,
    get_room gm room_id = Some r →
    rtc (room_step settings) r r1 →
    GameManager.rooms (put_room room_id r1 gm) !! k = Some r' →
    ∃ r0, GameManager.rooms gm !! k = Some r0 ∧
          rtc (room_step settings) r0 r').
  { intros room_id r r1 Hr Hrtc Hk.
    apply put_room_lookup in Hk as [[-> ->]|[_ Hk]]; eauto using rtc_refl. }
  destruct a; simpl.
  - intros [= <-] Hk. simpl in Hk.
    destruct (decide (new_id = k)) as [->|Hne].
    + rewrite lookup_insert_eq in Hk. injection Hk as <-. right. eauto.
    + rewrite lookup_insert_ne in Hk by done. left. eauto using rtc_refl.
  - intros [= <-] Hk. left.
    destruct (get_room gm room_id) as [room|] eqn:Hr.
    2:{ unfold start_game in Hk. rewrite Hr in Hk. eauto using rtc_refl. }
    destruct (decide (GameRoom.status room = WAITING)) as [Hst|Hst].
    + rewrite (start_game_room _ _ _ _ Hr Hst) in Hk.
      eapply Hput; [done| |done]. apply rtc_once. by constructor.
    + rewrite (start_game_skip _ _ _ _ Hr Hst) in Hk. eauto using rtc_refl.
  - intros Hreg Hk. left.
    destruct (get_room gm room_id) as [room|] eqn:Hr.
    2:{ unfold register_pull in Hreg. rewrite Hr in Hreg.
        injection Hreg as <-. eauto using rtc_refl. }
    destruct (decide (GameRoom.status room = ACTIVE)) as [Hst|Hst].
    + rewrite (register_pull_room _ _ _ _ _ _ Hr Hst) in Hreg.
      destruct (pulled now player_id username room) as [room'|] eqn:Hp;
        simpl in Hreg; [|done].
      injection Hreg as <-. eapply Hput; [done| |done].
      apply rtc_once. by econstructor.
    + rewrite (register_pull_skip _ _ _ _ _ _ Hr Hst) in Hreg.
      injection Hreg as <-. eauto using rtc_refl.
  - destruct (get_room gm room_id) as [room|] eqn:Hr.
    2:{ intros [= <-] Hk. left. eauto using rtc_refl. }
    destruct (update_rope_position settings now room) as [[room' ts]|] eqn:Hu;
      simpl; [|done].
    intros [= <-] Hk. left. eapply Hput; [done| |done].
    destruct (decide (GameRoom.status room = ACTIVE)) as [Hst|Hst].
    + apply rtc_once. by econstructor.
    + unfold update_rope_position in Hu. rewrite decide_True in Hu by done.
      injection Hu as <- _. apply rtc_refl.
  - intros [= <-] Hk. left.
    destruct (get_room gm room_id) as [room|] eqn:Hr.
    2:{ unfold end_game in Hk. rewrite Hr in Hk. eauto using rtc_refl. }
    rewrite (end_game_room _ _ _ _ Hr) in Hk.
    eapply Hput; [done| |done]. apply rtc_once. constructor.
  - rewrite cleanup_room_eq. intros [= <-] Hk. simpl in Hk.
    apply lookup_delete_Some in Hk as [_ Hk]. left. eauto using rtc_refl.
  - intros [= <-] Hk. left.
    destruct (get_room gm room_id) as [room|] eqn:Hr.
    2:{ unfold handle_player_disconnect in Hk. rewrite Hr in Hk.
        eauto using rtc_refl. }
    rewrite (handle_player_disconnect_room _ _ _ _ _ Hr) in Hk.
    eapply Hput; [done| |done]. apply rtc_once. constructor.
  - unfold game_loop_room.
    destruct (get_room gm room_id) as [room|] eqn:Hr.
    2:{ simpl. intros [= <-] Hk. left. eauto using rtc_refl. }
    case_decide as Hst.
    { simpl. intros [= <-] Hk. left. eauto using rtc_refl. }
    destruct (update_rope_position settings now room) as [[room' ts]|] eqn:Hu;
      simpl; [|done].
    assert (Htick : room_step settings room room') by by econstructor.
    assert (Hend : ∀ k0 r0,
      GameManager.rooms
        (end_game settings now (GameRoom.id room')
           (put_room room_id room' gm)) !! k0 = Some r0 →
      ∃ r, GameManager.rooms gm !! k0 = Some r ∧
           rtc (room_step settings) r r0).
    { intros k0 r0 Hk0. unfold end_game in Hk0.
      destruct (get_room (put_room room_id room' gm) (GameRoom.id room'))
        as [r1|] eqn:Hr1.
      - apply put_room_lookup in Hk0 as [[-> ->]|[_ Hk0]].
        + apply put_room_lookup in Hr1 as [[-> ->]|[_ Hr1]].
          * exists room. split; [done|].
            eapply rtc_l; [done|]. apply rtc_once. constructor.
          * exists r1. split; [done|]. apply rtc_once. constructor.
        + apply put_room_lookup in Hk0 as [[-> ->]|[_ Hk0]];
            eauto using rtc_once, rtc_refl.
      - apply put_room_lookup in Hk0 as [[-> ->]|[_ Hk0]];
          eauto using rtc_once, rtc_refl. }
    destruct (GameRoom.start_time room') as [start|].
    + destruct (Rge_dec _ _); simpl; intros [= <-] Hk; left.
      * by apply Hend.
      * eapply Hput; [done| |done]. by apply rtc_once.
    + simpl. intros [= <-] Hk. left.
      eapply Hput; [done| |done]. by apply rtc_once.
Qed.

(** A property of rooms that holds of a new room and survives every
    mutation holds in every reachable state. *)
Lemma reachable_room_inv (P : GameRoom.t → Prop) gm k r :
  (∀ new_id p1 p2, P (fresh_room new_id p1 p2)) →
  (∀ r r', room_step settings r r' → P r → P r') →
  reachable settings gm →
  GameManager.rooms gm !! k = Some r →
  P r.
Proof.
  intros Hfresh Hstep Hreach. revert k r.
  induction Hreach as [|a gm gm' _ IH _ Hs]; intros k r' Hk.
  - simpl in Hk. by rewrite lookup_empty in Hk.
  - destruct (step_room_steps _ _ _ _ _ Hs Hk)
      as [(r & Hr & Hrtc)|(p1 & p2 & _ & ->)]; [|done].
    specialize (IH _ _ Hr). clear Hr Hk.
    induction Hrtc; eauto.
Qed.

Lemma run_room_steps acts gm gm' k r r' :
  Forall (λ a, ∀ p1 p2, a ≠ CreateRoom k p1 p2) acts →
  run settings acts gm = Ok gm' →
  GameManager.rooms gm !! k = Some r →
  GameManager.rooms gm' !! k = Some r' →
  rtc (room_step settings) r r'.
Proof.
  intros Hacts. revert gm r.
  induction Hacts as [|a acts Ha Hacts IH]; intros gm r; simpl.
  - intros [= <-] Hr Hr'. rewrite Hr in Hr'. injection Hr' as <-. done.
  - destruct (step settings a gm) as [gm1|] eqn:Hstep; simpl; [|done].
    intros Hrun Hr Hr'.
    destruct (GameManager.rooms gm1 !! k) as [r1|] eqn:Hr1.
    + destruct (step_room_steps _ _ _ _ _ Hstep Hr1)
        as [(r0 & Hr0 & Hrtc)|(p1 & p2 & -> & _)]; [|by edestruct Ha].
      rewrite Hr in Hr0. injection Hr0 as <-.
      etrans; [done|]. by eapply IH.
    + assert (Hnone : get_room gm' k = None);
        [|unfold get_room in Hnone; congruence].
      clear IH Hr Hr' Hstep Ha. revert gm1 Hrun Hr1.
      induction Hacts as [|b acts Hb _ IH]; intros gm1; simpl.
      * by intros [= <-].
      * destruct (step settings b gm1) as [gm2|] eqn:Hstep; simpl; [|done].
        intros Hrun Hnone. eapply IH; [done|].
        by eapply step_no_new_room.
Qed.
End Evolution.

(** ** Invariants of the room objects *)

Section RoomInvariants.
Variable settings : Settings.t.

Lemma determine_winner_cases room :
  determine_winner settings room =
    set_winner_id (Some (Player.id (GameRoom.player2 room))) room ∨
  determine_winner settings room =
    set_winner_id (Some (Player.id (GameRoom.player1 room))) room ∨
  determine_winner settings room = room.
Proof.
  unfold determine_winner.
  destruct (Rle_dec _ _); [|destruct (Rge_dec _ _)]; auto.
Qed.

Lemma forfeit_cases session_id room :
  (GameRoom.status room = ACTIVE ∧
   (forfeit session_id room =
      set_winner_id (Some (Player.id (GameRoom.player2 room)))
        (set_status ABANDONED room) ∨
    forfeit session_id room =
      set_winner_id (Some (Player.id (GameRoom.player1 room)))
        (set_status ABANDONED room))) ∨
  (GameRoom.status room ≠ ACTIVE ∧ forfeit session_id room = room).
Proof.
  unfold forfeit. case_decide; [left|right]; split; try done.
  case_decide; auto.
Qed.

Lemma pulled_cases now player_id username room room' :
  pulled now player_id username room = Ok room' →
  let history :=
    GameRoom.pull_history room ++
      [{| PullData.timestamp := now;
          PullData.username := username;
          PullData.player_id := player_id |}] in
  (player_id = Player.id (GameRoom.player1 room) ∧
   ∃ n, GameRoom.player1_stats room !! "total_pulls" = Some n ∧
        room' = set_player1_stats
                  (<["total_pulls" := (n + 1)%R]> (GameRoom.player1_stats room))
                  (set_pull_history history room)) ∨
  (player_id ≠ Player.id (GameRoom.player1 room) ∧
   ∃ n, GameRoom.player2_stats room !! "total_pulls" = Some n ∧
        room' = set_player2_stats
                  (<["total_pulls" := (n + 1)%R]> (GameRoom.player2_stats room))
                  (set_pull_history history room)).
Proof.
  unfold pulled, getitem. simpl. case_decide as Hp.
  - destruct (GameRoom.player1_stats room !! "total_pulls") as [n|] eqn:Hn;
      simpl; [|done].
    intros [= <-]. left. eauto.
  - destruct (GameRoom.player2_stats room !! "total_pulls") as [n|] eqn:Hn;
      simpl; [|done].
    intros [= <-]. right. eauto.
Qed.

Lemma room_step_lifecycle r r' :
  room_step settings r r' → lifecycle_wf r → lifecycle_wf r'.
Proof.
  assert (Hfin : ∀ now room,
    (∀ w, GameRoom.winner_id room = Some w →
          w = Player.id (GameRoom.player1 room) ∨
          w = Player.id (GameRoom.player2 room)) →
    lifecycle_wf (finished settings now room)).
  { intros now room Hw. unfold finished, lifecycle_wf.
    destruct (determine_winner_cases
                (set_end_time (Some now) (set_status FINISHED room)))
      as [-> | [-> | ->]]; simpl; (split; [by eexists|]).
    - intros w [= <-]. by right.
    - intros w [= <-]. by left.
    - done. }
  assert (Hvalid : ∀ room, lifecycle_wf room →
    ∀ w, GameRoom.winner_id room = Some w →
         w = Player.id (GameRoom.player1 room) ∨
         w = Player.id (GameRoom.player2 room)).
  { intros room. unfold lifecycle_wf.
    destruct (GameRoom.status room); [| |tauto|done].
    - intros (_ & _ & -> & _). done.
    - intros (_ & _ & ->). done. }
  intros Hstep Hwf. destruct Hstep as
    [now room Hst|now pid u room room' Hst Hp|now room room' ts Hst Hu
    |now room|now sid room].
  - unfold lifecycle_wf in *. rewrite Hst in Hwf. simpl.
    destruct Hwf as (_ & He & Hw & _). split; [by eexists|done].
  - unfold lifecycle_wf in *. rewrite Hst in Hwf.
    apply pulled_cases in Hp as [(_ & n & _ & ->)|(_ & n & _ & ->)];
      simpl; by rewrite Hst.
  - rewrite update_rope_position_eq in Hu by done. injection Hu as <- _.
    unfold lifecycle_wf in *. simpl. by rewrite Hst in *.
  - by apply Hfin, Hvalid.
  - apply Hfin.
    destruct (forfeit_cases sid room) as [(_ & [-> | ->])|(_ & ->)]; simpl.
    + intros w [= <-]. by right.
    + intros w [= <-]. by left.
    + by apply Hvalid.
Qed.

Lemma finished_counters now room :
  counters_wf room → counters_wf (finished settings now room).
Proof.
  intros [H1 H2]. unfold finished, counters_wf, counters_match in *.
  destruct (determine_winner_cases
              (set_end_time (Some now) (set_status FINISHED room)))
    as [-> | [-> | ->]]; simpl; (split; [done|]);
    destruct (GameRoom.start_time room); try done;
    destruct H2 as [-> _]; done.
Qed.

Lemma room_step_counters r r' :
  room_step settings r r' → counters_wf r → counters_wf r'.
Proof.
  intros Hstep Hwf. destruct Hstep as
    [now room Hst|now pid u room room' Hst Hp|now room room' ts Hst Hu
    |now room|now sid room].
  - destruct Hwf as [H1 H2]. rewrite (H1 Hst) in H2. destruct H2 as [Hh _].
    unfold counters_wf, counters_match. simpl. rewrite Hh. done.
  - destruct Hwf as [H1 H2]. unfold counters_wf, counters_match in *.
    destruct (GameRoom.start_time room) as [start|] eqn:Hstart;
      [|by destruct H2].
    destruct H2 as [Hc1 Hc2].
    apply pulled_cases in Hp as [(-> & n & Hn & ->)|(Hne & n & Hn & ->)];
      simpl; rewrite Hstart; (split; [by rewrite Hst|]);
      rewrite !filter_app, !length_app, !filter_cons, !filter_nil; simpl.
    + rewrite decide_True by done. rewrite decide_False by (by intros []).
      rewrite lookup_insert_eq. simpl.
      rewrite !plus_INR. change (INR 1) with 1%R. change (INR 0) with 0%R.
      rewrite Rplus_0_r. rewrite Hc1 in Hn. by injection Hn as <-.
    + rewrite decide_False by done. rewrite decide_True by done.
      rewrite lookup_insert_eq. simpl.
      rewrite !plus_INR. change (INR 1) with 1%R. change (INR 0) with 0%R.
      rewrite Rplus_0_r. rewrite Hc2 in Hn. by injection Hn as <-.
  - rewrite update_rope_position_eq in Hu by done. injection Hu as <- _.
    destruct Hwf as [H1 H2]. unfold counters_wf, counters_match in *. simpl.
    split; [done|]. destruct (GameRoom.start_time room); [|done].
    by rewrite !lookup_insert_ne.
  - by apply finished_counters.
  - apply finished_counters.
    destruct Hwf as [H1 H2]. unfold counters_wf, counters_match in *.
    destruct (forfeit_cases sid room) as [(Hst & [-> | ->])|(_ & ->)]; simpl;
      try done; (split; [done|]);
      destruct (GameRoom.start_time room); try done;
      destruct H2 as [? ?]; done.
Qed.
End RoomInvariants.

Lemma fresh_room_lifecycle new_id p1 p2 : lifecycle_wf (fresh_room new_id p1 p2).
Proof. unfold lifecycle_wf. simpl. done. Qed.

Lemma fresh_room_counters new_id p1 p2 : counters_wf (fresh_room new_id p1 p2).
Proof. unfold counters_wf. simpl. done. Qed.

(** X1. No room of a reachable state is ABANDONED: the status written by the
    disconnect handler never survives to the handler's first suspension. *)
Theorem never_abandoned settings gm room_id room :
  reachable settings gm →
  get_room gm room_id = Some room →
  GameRoom.status room ≠ ABANDONED.
Proof.
  intros Hreach Hroom.
  pose proof (reachable_room_inv settings lifecycle_wf gm room_id room
                fresh_room_lifecycle (room_step_lifecycle settings)
                Hreach Hroom) as Hwf.
  unfold lifecycle_wf in Hwf. intros Hst. by rewrite Hst in Hwf.
Qed.

(** The disconnect of an ACTIVE room is a reachable state in which this
    can be observed. *)
Lemma reachable_after_disconnect settings :
  reachable settings
    (handle_player_disconnect settings 7 "r1" "sa" gm_active).
Proof.
  eapply (reachable_step settings (HandlePlayerDisconnect 7 "r1" "sa")
            gm_active); [apply reachable_gm_active|done..].
Qed.

Lemma never_abandoned_witness :
  ∃ room,
    get_room (handle_player_disconnect default_settings 7 "r1" "sa" gm_active)
      "r1" = Some room ∧
    GameRoom.status room ≠ ABANDONED.
Proof.
  eexists. split.
  - eapply handle_player_disconnect_eq. reflexivity.
  - eapply (never_abandoned default_settings _ "r1");
      [apply reachable_after_disconnect|].
    eapply handle_player_disconnect_eq. reflexivity.
Defined.

(** X2. In every reachable state the fields of a room agree with its status: a
    WAITING room is untouched; an ACTIVE room has a start time and neither end
    time nor winner; a room has an end time exactly when it is FINISHED; and a
    recorded winner is one of the room's two players, in a FINISHED room. *)
Theorem room_fields_follow_status settings gm room_id room :
  reachable settings gm →
  get_room gm room_id = Some room →
  (GameRoom.status room = WAITING →
   GameRoom.start_time room = None ∧ GameRoom.end_time room = None ∧
   GameRoom.winner_id room = None ∧ GameRoom.pull_history room = [] ∧
   GameRoom.rope_position room = 0%R) ∧
  (GameRoom.status room = ACTIVE →
   is_Some (GameRoom.start_time room) ∧ GameRoom.end_time room = None ∧
   GameRoom.winner_id room = None) ∧
  (GameRoom.status room = FINISHED ↔ is_Some (GameRoom.end_time room)) ∧
  (∀ w, GameRoom.winner_id room = Some w →
        GameRoom.status room = FINISHED ∧
        (w = Player.id (GameRoom.player1 room) ∨
         w = Player.id (GameRoom.player2 room))).
Proof.
  intros Hreach Hroom.
  pose proof (reachable_room_inv settings lifecycle_wf gm room_id room
                fresh_room_lifecycle (room_step_lifecycle settings)
                Hreach Hroom) as Hwf.
  unfold lifecycle_wf in Hwf.
  destruct (GameRoom.status room); [| | |done].
  - destruct Hwf as (? & He & Hw & ? & ?). split_and!; try done.
    + split; [done|]. rewrite He. by intros [? ?].
    + intros w. by rewrite Hw.
  - destruct Hwf as (? & He & Hw). split_and!; try done.
    + split; [done|]. rewrite He. by intros [? ?].
    + intros w. by rewrite Hw.
  - destruct Hwf as (He & Hw). split_and!; try done. intros w Hwin. auto.
Qed.

Lemma room_fields_follow_status_witness :
  ∃ room,
    get_room (handle_player_disconnect default_settings 7 "r1" "sa" gm_active)
      "r1" = Some room ∧
    (GameRoom.status room = FINISHED ↔ is_Some (GameRoom.end_time room)) ∧
    (∀ w, GameRoom.winner_id room = Some w →
          GameRoom.status room = FINISHED ∧
          (w = Player.id (GameRoom.player1 room) ∨
           w = Player.id (GameRoom.player2 room))).
Proof.
  eexists. split; [eapply handle_player_disconnect_eq; reflexivity|].
  eapply (room_fields_follow_status default_settings _ "r1");
    [apply reachable_after_disconnect|].
  eapply handle_player_disconnect_eq. reflexivity.
Defined.

Lemma filter_split_length (id : string) (l : list PullData.t) :
  length (filter (λ p, PullData.player_id p = id) l) +
  length (filter (λ p, PullData.player_id p ≠ id) l) = length l.
Proof.
  induction l as [|p l IH]; [done|].
  rewrite !filter_cons.
  destruct (decide (PullData.player_id p = id)) as [Hp|Hp].
  - rewrite decide_False by (intros H; by apply H). simpl. lia.
  - rewrite decide_True by done. simpl. lia.
Qed.

(** X3. In every reachable state, the [total_pulls] counters of a started room
    account for its whole pull history: player 1's counter is the number of
    events sent for player 1's id, player 2's the number of all others. *)
Theorem total_pulls_account_for_history settings gm room_id room :
  reachable settings gm →
  get_room gm room_id = Some room →
  is_Some (GameRoom.start_time room) →
  counters_match room ∧
  ∃ n1 n2,
    GameRoom.player1_stats room !! "total_pulls" = Some (INR n1) ∧
    GameRoom.player2_stats room !! "total_pulls" = Some (INR n2) ∧
    n1 + n2 = length (GameRoom.pull_history room).
Proof.
  intros Hreach Hroom [start Hstart].
  pose proof (reachable_room_inv settings counters_wf gm room_id room
                fresh_room_counters (room_step_counters settings)
                Hreach Hroom) as [_ Hwf].
  rewrite Hstart in Hwf. split; [done|].
  destruct Hwf as [H1 H2]. eexists _, _. split_and!; [done..|].
  apply filter_split_length.
Qed.

(** Three pulls in a started game: a reachable state to read the counters
    in. *)
Lemma initial_total_pulls : initial_stats !! "total_pulls" = Some 0%R.
Proof.
  unfold initial_stats.
  rewrite !lookup_insert_ne by done. apply lookup_insert_eq.
Qed.

Lemma pulled_for_player1 now username room n :
  GameRoom.player1_stats room !! "total_pulls" = Some n →
  pulled now (Player.id (GameRoom.player1 room)) username room =
    Ok (set_player1_stats
          (<["total_pulls" := (n + 1)%R]> (GameRoom.player1_stats room))
          (set_pull_history
             (GameRoom.pull_history room ++
                [{| PullData.timestamp := now;
                    PullData.username := username;
                    PullData.player_id := Player.id (GameRoom.player1 room) |}])
             room)).
Proof.
  intros Hn. unfold pulled, getitem. simpl.
  rewrite decide_True by done. by rewrite Hn.
Qed.

Lemma pulled_for_other now player_id username room n :
  player_id ≠ Player.id (GameRoom.player1 room) →
  GameRoom.player2_stats room !! "total_pulls" = Some n →
  pulled now player_id username room =
    Ok (set_player2_stats
          (<["total_pulls" := (n + 1)%R]> (GameRoom.player2_stats room))
          (set_pull_history
             (GameRoom.pull_history room ++
                [{| PullData.timestamp := now;
                    PullData.username := username;
                    PullData.player_id := player_id |}])
             room)).
Proof.
  intros Hne Hn. unfold pulled, getitem. simpl.
  rewrite decide_False by done. by rewrite Hn.
Qed.

Lemma gm_one_pull_run :
  run default_settings [RegisterPull (1 * 1000000) "r1" "p1" "v1"] gm_active
    = Ok gm_one_pull.
Proof.
  unfold run, step.
  rewrite (register_pull_room _ _ _ _ _
             (started 0 (fresh_room "r1" alice bob))) by reflexivity.
  change "p1" with
    (Player.id (GameRoom.player1 (started 0 (fresh_room "r1" alice bob))))
    at 1.
  rewrite (pulled_for_player1 _ _ _ 0%R) by apply initial_total_pulls.
  reflexivity.
Qed.

Lemma gm_three_pulls_run :
  run default_settings
    [RegisterPull (2 * 1000000) "r1" "p2" "v9";
     RegisterPull (3 * 1000000) "r1" "zz" "v3"] gm_one_pull
    = Ok gm_three_pulls.
Proof.
  unfold run, step.
  rewrite (register_pull_room _ _ _ _ _ room_one_pull)
    by (try reflexivity; apply lookup_insert_eq).
  rewrite (pulled_for_other _ _ _ _ 0%R)
    by (try done; apply initial_total_pulls).
  cbn [mbind result_bind].
  rewrite (register_pull_room _ _ _ _ _ _ (lookup_insert_eq _ _ _))
    by reflexivity.
  rewrite (pulled_for_other _ _ _ _ (0 + 1)%R)
    by (try done; apply lookup_insert_eq).
  cbn [mbind result_bind]. unfold gm_three_pulls, gm_one_pull, put_room. simpl.
  rewrite !insert_insert_eq. reflexivity.
Qed.

Lemma reachable_gm_three_pulls : reachable default_settings gm_three_pulls.
Proof.
  eapply reachable_run; [|shelve|apply gm_three_pulls_run].
  eapply reachable_run;
    [apply reachable_gm_active|shelve|apply gm_one_pull_run].
  Unshelve. all: repeat constructor; intros; discriminate.
Qed.

Lemma total_pulls_account_for_history_witness :
  ∃ room,
    get_room gm_three_pulls "r1" = Some room ∧
    length (GameRoom.pull_history room) = 3 ∧
    counters_match room ∧
    ∃ n1 n2,
      GameRoom.player1_stats room !! "total_pulls" = Some (INR n1) ∧
      GameRoom.player2_stats room !! "total_pulls" = Some (INR n2) ∧
      n1 + n2 = length (GameRoom.pull_history room).
Proof.
  exists room_three_pulls.
  split; [apply lookup_insert_eq|]. split; [reflexivity|].
  apply (total_pulls_account_for_history default_settings gm_three_pulls "r1"
           room_three_pulls reachable_gm_three_pulls (lookup_insert_eq _ _ _)).
  by eexists.
Defined.

(** ** Along a schedule *)

Section Schedule.
Variable settings : Settings.t.

Lemma room_step_keeps r r' :
  room_step settings r r' →
  GameRoom.id r' = GameRoom.id r ∧
  GameRoom.player1 r' = GameRoom.player1 r ∧
  GameRoom.player2 r' = GameRoom.player2 r ∧
  GameRoom.pull_history r `prefix_of` GameRoom.pull_history r'.
Proof.
  assert (Hfin : ∀ now room,
    GameRoom.id (finished settings now room) = GameRoom.id room ∧
    GameRoom.player1 (finished settings now room) = GameRoom.player1 room ∧
    GameRoom.player2 (finished settings now room) = GameRoom.player2 room ∧
    GameRoom.pull_history (finished settings now room)
      = GameRoom.pull_history room).
  { intros now room. unfold finished.
    by destruct (determine_winner_cases settings
                   (set_end_time (Some now) (set_status FINISHED room)))
      as [-> | [-> | ->]]. }
  destruct 1 as
    [now room Hst|now pid u room room' Hst Hp|now room room' ts Hst Hu
    |now room|now sid room].
  - done.
  - apply pulled_cases in Hp as [(_ & n & _ & ->)|(_ & n & _ & ->)]; simpl;
      split_and!; try done; by apply prefix_app_r.
  - rewrite update_rope_position_eq in Hu by done. by injection Hu as <- _.
  - destruct (Hfin now room) as (-> & -> & -> & ->). done.
  - destruct (Hfin now (forfeit sid room)) as (-> & -> & -> & ->).
    by destruct (forfeit_cases sid room) as [(_ & [-> | ->])|(_ & ->)].
Qed.

Lemma room_steps_keep r r' :
  rtc (room_step settings) r r' →
  GameRoom.id r' = GameRoom.id r ∧
  GameRoom.player1 r' = GameRoom.player1 r ∧
  GameRoom.player2 r' = GameRoom.player2 r ∧
  GameRoom.pull_history r `prefix_of` GameRoom.pull_history r'.
Proof.
  induction 1 as [r|r1 r2 r3 H12 _ (Hi & H1 & H2 & Hh)]; [done|].
  apply room_step_keeps in H12 as (Hi' & H1' & H2' & Hh').
  split_and!; try congruence. by etrans.
Qed.

(** X4. Along any schedule that does not create a room under the same id again,
    a stored room keeps its id and its two players, and its pull history
    only grows at the end: no event is ever dropped, changed or reordered. *)
Theorem pull_history_append_only acts gm gm' room_id room room' :
  Forall (λ a, ∀ p1 p2, a ≠ CreateRoom room_id p1 p2) acts →
  run settings acts gm = Ok gm' →
  get_room gm room_id = Some room →
  get_room gm' room_id = Some room' →
  GameRoom.id room' = GameRoom.id room ∧
  GameRoom.player1 room' = GameRoom.player1 room ∧
  GameRoom.player2 room' = GameRoom.player2 room ∧
  ∃ later,
    GameRoom.pull_history room' = GameRoom.pull_history room ++ later.
Proof.
  intros Hacts Hrun Hroom Hroom'.
  pose proof (run_room_steps settings _ _ _ _ _ _ Hacts Hrun Hroom Hroom')
    as Hrtc.
  apply room_steps_keep in Hrtc as (? & ? & ? & [later Hl]).
  split_and!; try done. by exists later.
Qed.

(** The only thing a mutation can still change in a room that [end_game]
    has finished is the end time. *)
Lemma determine_winner_idem r :
  determine_winner settings (determine_winner settings r)
    = determine_winner settings r.
Proof.
  unfold determine_winner.
  destruct (Rle_dec (GameRoom.rope_position r) _) as [Hle|Hle];
    [|destruct (Rge_dec (GameRoom.rope_position r) _) as [Hge|Hge]]; simpl.
  - by destruct (Rle_dec _ _).
  - destruct (Rle_dec _ _); [done|]. by destruct (Rge_dec _ _).
  - destruct (Rle_dec _ _); [done|]. by destruct (Rge_dec _ _).
Qed.

Lemma finished_stable now r0 :
  GameRoom.status (finished settings now r0) = FINISHED ∧
  determine_winner settings (finished settings now r0)
    = finished settings now r0.
Proof.
  unfold finished. split; [by rewrite determine_winner_status|].
  apply determine_winner_idem.
Qed.

Lemma determine_winner_end_time e r :
  determine_winner settings (set_end_time e r)
    = set_end_time e (determine_winner settings r).
Proof.
  unfold determine_winner. simpl.
  by destruct (Rle_dec _ _); [|destruct (Rge_dec _ _)].
Qed.

Lemma frozen_step r r' :
  GameRoom.status r = FINISHED →
  determine_winner settings r = r →
  room_step settings r r' →
  r' = set_end_time (GameRoom.end_time r') r.
Proof.
  intros Hst Hdw.
  assert (Hfin : ∀ now,
    finished settings now r
      = set_end_time (GameRoom.end_time (finished settings now r)) r).
  { intros now. unfold finished.
    assert (Hd : determine_winner settings
                   (set_end_time (Some now) (set_status FINISHED r))
                 = set_end_time (Some now) (determine_winner settings r)).
    { unfold determine_winner. simpl.
      destruct (Rle_dec _ _); [|destruct (Rge_dec _ _)];
        destruct r; simpl in *; by rewrite Hst. }
    rewrite Hd, Hdw. destruct r; simpl in *. by rewrite Hst. }
  destruct 1 as
    [now room Hst'|now pid u room room' Hst' Hp|now room room' ts Hst' Hu
    |now room|now sid room]; [congruence..|apply Hfin|].
  destruct (forfeit_cases sid room) as [(Hact & _)|(_ & Hf)];
    [congruence|rewrite Hf; apply Hfin].
Qed.

Lemma frozen_steps r r' :
  GameRoom.status r = FINISHED →
  determine_winner settings r = r →
  rtc (room_step settings) r r' →
  r' = set_end_time (GameRoom.end_time r') r.
Proof.
  intros Hst Hdw Hrtc. revert Hst Hdw.
  induction Hrtc as [r|r1 r2 r3 H12 _ IH]; intros Hst Hdw.
  - by destruct r.
  - pose proof (frozen_step _ _ Hst Hdw H12) as H2.
    assert (Hst2 : GameRoom.status r2 = FINISHED) by (by rewrite H2).
    assert (Hdw2 : determine_winner settings r2 = r2).
    { rewrite H2. by rewrite determine_winner_end_time, Hdw. }
    rewrite (IH Hst2 Hdw2). rewrite H2. by destruct r1.
Qed.

(** X5. Once [end_game] has run on a room, no later step of any schedule
    changes anything in it but the end time: pulls are dropped, the game
    cannot be started again, and status, winner, rope position, stats and
    history stay as [end_game] left them. *)
Theorem finished_room_frozen now acts gm gm' room_id room room' :
  Forall (λ a, ∀ p1 p2, a ≠ CreateRoom room_id p1 p2) acts →
  get_room gm room_id = Some room →
  run settings acts (end_game settings now room_id gm) = Ok gm' →
  get_room gm' room_id = Some room' →
  room' = set_end_time (GameRoom.end_time room') (finished settings now room).
Proof.
  intros Hacts Hroom Hrun Hroom'.
  destruct (finished_stable now room) as [Hst Hdw].
  apply frozen_steps; [done..|].
  eapply run_room_steps; [done..| |done].
  rewrite (end_game_room _ _ _ _ _ Hroom). simpl. apply lookup_insert_eq.
Qed.
End Schedule.

Lemma pull_history_append_only_witness :
  run default_settings
    [RegisterPull (2 * 1000000) "r1" "p2" "v9";
     RegisterPull (3 * 1000000) "r1" "zz" "v3"] gm_one_pull
    = Ok gm_three_pulls ∧
  GameRoom.pull_history room_one_pull = [pull_at 1 "v1" "p1"] ∧
  GameRoom.id room_three_pulls = GameRoom.id room_one_pull ∧
  GameRoom.player1 room_three_pulls = GameRoom.player1 room_one_pull ∧
  GameRoom.player2 room_three_pulls = GameRoom.player2 room_one_pull ∧
  ∃ later,
    GameRoom.pull_history room_three_pulls
      = GameRoom.pull_history room_one_pull ++ later.
Proof.
  split; [apply gm_three_pulls_run|]. split; [reflexivity|].
  apply (pull_history_append_only default_settings
           [RegisterPull (2 * 1000000) "r1" "p2" "v9";
            RegisterPull (3 * 1000000) "r1" "zz" "v3"]
           gm_one_pull gm_three_pulls "r1").
  - repeat constructor; intros; discriminate.
  - apply gm_three_pulls_run.
  - apply lookup_insert_eq.
  - apply lookup_insert_eq.
Defined.

Lemma late_steps_skipped :
  let gm := end_game default_settings 7 "r1" gm_active in
  run default_settings [RegisterPull 8 "r1" "p1" "v1"; StartGame 9 "r1"] gm
    = Ok gm.
Proof.
  intros gm.
  assert (Hget : get_room gm "r1" =
    Some (finished default_settings 7 (started 0 (fresh_room "r1" alice bob)))).
  { by apply end_game_eq. }
  destruct (finished_stable default_settings 7
              (started 0 (fresh_room "r1" alice bob))) as [Hst _].
  simpl. rewrite (register_pull_skip _ _ _ _ _ _ Hget) by by rewrite Hst.
  simpl. rewrite (start_game_skip _ _ _ _ Hget) by by rewrite Hst.
  done.
Qed.

Lemma finished_room_frozen_witness :
  ∃ room room',
    get_room gm_active "r1" = Some room ∧
    get_room (end_game default_settings 7 "r1" gm_active) "r1" = Some room' ∧
    room' = set_end_time (GameRoom.end_time room')
              (finished default_settings 7 room).
Proof.
  assert (Hget : get_room (end_game default_settings 7 "r1" gm_active) "r1" =
    Some (finished default_settings 7 (started 0 (fresh_room "r1" alice bob)))).
  { by apply end_game_eq. }
  eexists _, _. split; [reflexivity|]. split; [exact Hget|].
  apply (finished_room_frozen default_settings 7
           [RegisterPull 8 "r1" "p1" "v1"; StartGame 9 "r1"]
           gm_active (end_game default_settings 7 "r1" gm_active) "r1").
  - repeat constructor; intros; discriminate.
  - reflexivity.
  - apply late_steps_skipped.
  - exact Hget.
Defined.

(** ** The matchmaking queue *)

Lemma queued_existsb (s : option string) (queue : list QueuePlayer.t) :
  existsb (λ q_player,
    bool_decide (Some (QueuePlayer.session_id q_player) = s)) queue = true ↔
  ∃ s', s = Some s' ∧ s' ∈ queued_sessions queue.
Proof.
  rewrite existsb_exists. unfold queued_sessions. split.
  - intros (q & Hin & Hq). apply bool_decide_eq_true_1 in Hq.
    exists (QueuePlayer.session_id q). split; [done|].
    apply list_elem_of_fmap. exists q. split; [done|].
    by apply list_elem_of_In.
  - intros (s' & -> & Hin). apply list_elem_of_fmap in Hin as (q & -> & Hin).
    exists q. split; [by apply list_elem_of_In|].
    by apply bool_decide_eq_true_2.
Qed.

Lemma add_player_queued now player queue s :
  Player.session_id player = Some s →
  s ∈ queued_sessions queue →
  add_player now player queue = queue.
Proof.
  intros Hs Hin. unfold add_player.
  replace (existsb _ queue) with true; [done|].
  symmetry. apply queued_existsb. eauto.
Qed.

Lemma add_player_new now player queue s :
  Player.session_id player = Some s →
  s ≠ "" →
  s ∉ queued_sessions queue →
  add_player now player queue = queue ++ [entry now player s].
Proof.
  intros Hs Hne Hnin. apply add_player_fresh; [done..|].
  apply Forall_forall. intros q Hq Heq. apply Hnin.
  apply list_elem_of_fmap. by exists q.
Qed.

Lemma add_player_no_session now player queue :
  falsy (Player.session_id player) = true →
  add_player now player queue = queue.
Proof.
  intros Hf. unfold add_player. rewrite Hf. by destruct (existsb _ queue).
Qed.

(** X6. [add_player] changes the queue exactly when the player has a non-empty
    session that is not queued yet, and then it appends one entry for that
    session at the back; a player without a session, with an empty one, or
    whose session is already waiting leaves the queue as it is. *)
Theorem add_player_accepts now player queue :
  (∀ s, Player.session_id player = Some s → s ≠ "" →
        s ∉ queued_sessions queue →
        add_player now player queue = queue ++ [entry now player s]) ∧
  (∀ s, Player.session_id player = Some s → s ∈ queued_sessions queue →
        add_player now player queue = queue) ∧
  (Player.session_id player = None ∨ Player.session_id player = Some "" →
   add_player now player queue = queue) ∧
  (add_player now player queue ≠ queue →
   ∃ s, Player.session_id player = Some s ∧ s ≠ "" ∧
        s ∉ queued_sessions queue).
Proof.
  split_and!.
  - intros s. apply add_player_new.
  - intros s. apply add_player_queued.
  - intros [H|H]; apply add_player_no_session; by rewrite H.
  - intros Hchg. destruct (Player.session_id player) as [s|] eqn:Hs.
    + exists s. split; [done|]. split.
      * intros ->. apply Hchg. apply add_player_no_session. by rewrite Hs.
      * intros Hin. apply Hchg. by eapply add_player_queued.
    + exfalso. apply Hchg. apply add_player_no_session. by rewrite Hs.
Qed.

Lemma add_player_accepts_witness :
  add_player 1 alice [] = [entry 1 alice "sa"] ∧
  add_player 2 alice [entry 1 alice "sa"] = [entry 1 alice "sa"].
Proof.
  split.
  - apply (proj1 (add_player_accepts 1 alice []) "sa"); [done..|].
    apply not_elem_of_nil.
  - apply (proj1 (proj2 (add_player_accepts 2 alice [entry 1 alice "sa"])) "sa");
      [done|]. apply list_elem_of_here.
Defined.

Lemma remove_player_sessions session_id queue :
  queued_sessions (remove_player session_id queue)
    = filter (λ s, s ≠ session_id) (queued_sessions queue).
Proof.
  unfold queued_sessions, remove_player.
  induction queue as [|e queue IH]; [done|].
  rewrite fmap_cons, !filter_cons. simpl.
  destruct (decide (QueuePlayer.session_id e ≠ session_id));
    rewrite ?fmap_cons, IH; done.
Qed.

Lemma remove_player_absent session_id queue :
  session_id ∉ queued_sessions queue →
  remove_player session_id queue = queue.
Proof.
  unfold queued_sessions, remove_player.
  induction queue as [|e queue IH]; [done|].
  rewrite fmap_cons, not_elem_of_cons. intros [Hne Hnin].
  rewrite filter_cons. rewrite decide_True by done. by rewrite IH.
Qed.

Lemma queue_wf_nil : queue_wf [].
Proof. split; [apply NoDup_nil_2|apply Forall_nil_2]. Qed.

Lemma queue_wf_add now player queue :
  queue_wf queue → queue_wf (add_player now player queue).
Proof.
  intros [Hnd Hall].
  destruct (add_player_tail now player queue) as [->|(s & Hs & Hadd)];
    [done|].
  destruct (decide (s = "")) as [->|Hne].
  { rewrite add_player_no_session; [done|by rewrite Hs]. }
  destruct (decide (s ∈ queued_sessions queue)) as [Hin|Hnin].
  { by rewrite (add_player_queued _ _ _ _ Hs Hin). }
  rewrite Hadd. split.
  - unfold queued_sessions. rewrite fmap_app. apply NoDup_app.
    split; [done|]. split; [|apply NoDup_singleton].
    intros x Hx Hx'. apply list_elem_of_singleton in Hx'. simpl in Hx'.
    by subst.
  - apply Forall_app. split; [done|]. by apply Forall_singleton.
Qed.

Lemma queue_wf_remove session_id queue :
  queue_wf queue → queue_wf (remove_player session_id queue).
Proof.
  intros [Hnd Hall]. split.
  - rewrite remove_player_sessions.
    eapply sublist_NoDup; [done|apply sublist_filter].
  - apply Forall_forall. intros e He.
    apply list_elem_of_filter in He as [_ He].
    by eapply Forall_forall in Hall.
Qed.

Lemma find_match_cases queue found queue' :
  find_match queue = Ok (found, queue') →
  (length queue < 2 ∧ found = None ∧ queue' = queue) ∨
  (∃ a b,
     queue = a :: b :: queue' ∧
     found = Some (QueuePlayer.player a, QueuePlayer.player b)).
Proof.
  pose proof (find_match_head queue) as H.
  destruct queue as [|a [|b rest]]; rewrite H; intros [= <- <-];
    [left|left|right]; simpl; eauto with lia.
Qed.

(** X7. No session is ever queued twice: the empty queue is well formed, and
    [add_player], [remove_player] and [find_match] keep it so (distinct
    sessions, each non-empty and equal to its player's own). *)
Theorem queue_wf_preserved :
  queue_wf [] ∧
  (∀ now player queue, queue_wf queue → queue_wf (add_player now player queue)) ∧
  (∀ session_id queue,
     queue_wf queue → queue_wf (remove_player session_id queue)) ∧
  (∀ queue found queue',
     queue_wf queue → find_match queue = Ok (found, queue') →
     queue_wf queue').
Proof.
  split_and!.
  - apply queue_wf_nil.
  - apply queue_wf_add.
  - apply queue_wf_remove.
  - intros queue found queue' Hwf Hfind.
    apply find_match_cases in Hfind as [(_ & _ & ->)|(a & b & -> & _)];
      [done|].
    destruct Hwf as [Hnd Hall]. unfold queued_sessions in Hnd.
    rewrite !fmap_cons in Hnd.
    apply NoDup_cons in Hnd as [_ Hnd]. apply NoDup_cons in Hnd as [_ Hnd].
    apply Forall_cons in Hall as [_ Hall].
    apply Forall_cons in Hall as [_ Hall]. by split.
Qed.

Lemma queue_wf_preserved_witness :
  queue_wf (remove_player "sb"
              (add_player 3 carol (add_player 2 bob (add_player 1 alice [])))).
Proof.
  destruct queue_wf_preserved as (Hnil & Hadd & Hrem & _).
  apply Hrem, Hadd, Hadd, Hadd, Hnil.
Defined.

(** X8. [find_match] never pairs a connection with itself: in a well-formed
    queue the two matched players come from different, non-empty sessions,
    none of which is still waiting afterwards, and the queue is two shorter.
    Only sessions are told apart, not accounts: a player who waits on two
    different sessions is queued twice and matched against themselves. *)
Theorem find_match_distinct_sessions :
  (∀ queue player1 player2 queue',
     queue_wf queue →
     find_match queue = Ok (Some (player1, player2), queue') →
     ∃ s1 s2,
       Player.session_id player1 = Some s1 ∧
       Player.session_id player2 = Some s2 ∧
       s1 ≠ s2 ∧ s1 ≠ "" ∧ s2 ≠ "" ∧
       (s1 ∉ queued_sessions queue') ∧ (s2 ∉ queued_sessions queue') ∧
       length queue = length queue' + 2) ∧
  (∀ now1 now2 player1 player2 s1 s2,
     Player.id player1 = Player.id player2 →
     Player.session_id player1 = Some s1 →
     Player.session_id player2 = Some s2 →
     s1 ≠ "" → s2 ≠ "" → s1 ≠ s2 →
     let queue := add_player now2 player2 (add_player now1 player1 []) in
     queue_wf queue ∧
     find_match queue = Ok (Some (player1, player2), [])).
Proof.
  split.
  - intros queue player1 player2 queue' [Hnd Hall] Hfind.
    apply find_match_cases in Hfind as [(_ & ? & _)|(a & b & -> & Hf)];
      [done|].
    injection Hf as -> ->.
    unfold queued_sessions in *. rewrite !fmap_cons in Hnd.
    apply NoDup_cons in Hnd as [Ha Hnd]. apply NoDup_cons in Hnd as [Hb Hnd].
    apply Forall_cons in Hall as [[Hna Hsa] Hall].
    apply Forall_cons in Hall as [[Hnb Hsb] Hall].
    exists (QueuePlayer.session_id a), (QueuePlayer.session_id b).
    split_and!; try done.
    + intros Heq. apply Ha. rewrite Heq. apply list_elem_of_here.
    + intros Hin. apply Ha. by apply list_elem_of_further.
    + simpl. lia.
  - intros now1 now2 player1 player2 s1 s2 _ Hs1 Hs2 Hn1 Hn2 Hne queue.
    split; [apply queue_wf_add, queue_wf_add, queue_wf_nil|].
    unfold queue.
    rewrite (add_player_fresh now1 player1 [] s1) by done.
    rewrite (add_player_fresh now2 player2 _ s2);
      [|done..|by repeat constructor].
    reflexivity.
Qed.

Lemma find_match_distinct_sessions_witness :
  (∃ s1 s2,
     Player.session_id alice = Some s1 ∧
     Player.session_id bob = Some s2 ∧
     s1 ≠ s2 ∧ s1 ≠ "" ∧ s2 ≠ "" ∧
     (s1 ∉ queued_sessions [entry 3 carol "sc"]) ∧
     (s2 ∉ queued_sessions [entry 3 carol "sc"]) ∧
     length [entry 1 alice "sa"; entry 2 bob "sb"; entry 3 carol "sc"]
       = length [entry 3 carol "sc"] + 2) ∧
  Player.id alice = Player.id alice_again ∧
  queue_wf (add_player 2 alice_again (add_player 1 alice [])) ∧
  find_match (add_player 2 alice_again (add_player 1 alice []))
    = Ok (Some (alice, alice_again), []).
Proof.
  destruct find_match_distinct_sessions as [Hdistinct Hsame]. split.
  - apply (Hdistinct
             [entry 1 alice "sa"; entry 2 bob "sb"; entry 3 carol "sc"]).
    + change (queue_wf
        (add_player 3 carol (add_player 2 bob (add_player 1 alice [])))).
      apply queue_wf_add, queue_wf_add, queue_wf_add, queue_wf_nil.
    + reflexivity.
  - split; [reflexivity|].
    apply (Hsame 1%Z 2%Z alice alice_again "sa" "sa2"); done.
Defined.

(** X9. [remove_player] takes every entry of the session out and nothing else,
    keeping the order; it is a no-op for a session that is not waiting, and
    it undoes the [add_player] of a session that was not waiting. *)
Theorem remove_player_undoes_add session_id queue :
  (session_id ∉ queued_sessions (remove_player session_id queue)) ∧
  (∀ e, e ∈ remove_player session_id queue ↔
        e ∈ queue ∧ QueuePlayer.session_id e ≠ session_id) ∧
  remove_player session_id queue `sublist_of` queue ∧
  (session_id ∉ queued_sessions queue →
   remove_player session_id queue = queue ∧
   ∀ now player,
     Player.session_id player = Some session_id →
     remove_player session_id (add_player now player queue) = queue).
Proof.
  split_and!.
  - rewrite remove_player_sessions. intros Hin.
    apply list_elem_of_filter in Hin as [Hne _]. by apply Hne.
  - intros e. unfold remove_player. rewrite list_elem_of_filter. tauto.
  - apply remove_player_sublist.
  - intros Hnin. split; [by apply remove_player_absent|].
    intros now player Hs.
    destruct (add_player_tail now player queue) as [->|(s & Hs' & ->)].
    + by apply remove_player_absent.
    + rewrite Hs in Hs'. injection Hs' as <-.
      unfold remove_player. rewrite filter_app.
      fold (remove_player session_id queue).
      rewrite remove_player_absent by done.
      rewrite filter_cons, filter_nil. simpl.
      rewrite decide_False by (intros H; by apply H).
      apply app_nil_r.
Qed.

Lemma remove_player_undoes_add_witness :
  remove_player "sc" [entry 1 alice "sa"; entry 2 bob "sb"]
    = [entry 1 alice "sa"; entry 2 bob "sb"] ∧
  remove_player "sc"
    (add_player 3 carol [entry 1 alice "sa"; entry 2 bob "sb"])
    = [entry 1 alice "sa"; entry 2 bob "sb"].
Proof.
  assert (Hnin : "sc" ∉ queued_sessions
                   [entry 1 alice "sa"; entry 2 bob "sb"]).
  { unfold queued_sessions. simpl. rewrite !not_elem_of_cons.
    split_and!; [done..|apply not_elem_of_nil]. }
  destruct (proj2 (proj2 (proj2 (remove_player_undoes_add "sc"
              [entry 1 alice "sa"; entry 2 bob "sb"]))) Hnin) as [H1 H2].
  split; [exact H1|]. by apply H2.
Defined.

(** ** Looking rooms up by session *)

Lemma get_room_by_session_Some gm s room :
  get_room_by_session gm s = Some room →
  ∃ room_id,
    GameManager.session_to_room gm !! Some s = Some room_id ∧
    room_id ≠ "" ∧ get_room gm room_id = Some room.
Proof.
  unfold get_room_by_session.
  destruct (GameManager.session_to_room gm !! Some s) as [room_id|]; [|done].
  case_bool_decide; [done|]. eauto.
Qed.

Lemma create_room_lookup new_id player1 player2 gm s :
  new_id ≠ "" →
  Player.session_id player1 = Some s ∨ Player.session_id player2 = Some s →
  get_room (create_room new_id player1 player2 gm).1 new_id
    = Some (fresh_room new_id player1 player2) ∧
  get_room_by_session (create_room new_id player1 player2 gm).1 s
    = Some (fresh_room new_id player1 player2).
Proof.
  intros Hid Hs.
  assert (Hget : get_room (create_room new_id player1 player2 gm).1 new_id
                 = Some (fresh_room new_id player1 player2)).
  { unfold get_room. simpl. apply lookup_insert_eq. }
  split; [done|]. unfold get_room_by_session.
  assert (Hlook : GameManager.session_to_room
                    (create_room new_id player1 player2 gm).1 !! Some s
                  = Some new_id).
  { simpl. destruct (decide (Player.session_id player2 = Some s)) as [->|Hn].
    - apply lookup_insert_eq.
    - rewrite lookup_insert_ne by done. destruct Hs as [->|?]; [|done].
      apply lookup_insert_eq. }
  rewrite Hlook. by rewrite bool_decide_eq_false_2.
Qed.

(** X10. Right after [create_room], the room is found under its id and under
    the session of each of its two players, and it is WAITING. *)
Theorem create_room_then_lookup new_id player1 player2 gm s :
  new_id ≠ "" →
  Player.session_id player1 = Some s ∨ Player.session_id player2 = Some s →
  let gm' := (create_room new_id player1 player2 gm).1 in
  let room := (create_room new_id player1 player2 gm).2 in
  get_room gm' new_id = Some room ∧
  get_room_by_session gm' s = Some room ∧
  GameRoom.status room = WAITING ∧
  GameRoom.player1 room = player1 ∧ GameRoom.player2 room = player2.
Proof.
  intros Hid Hs gm' room.
  destruct (create_room_lookup new_id player1 player2 gm s Hid Hs) as [H1 H2].
  by split_and!.
Qed.

Lemma create_room_then_lookup_witness :
  get_room_by_session gm_waiting "sa" = get_room gm_waiting "r1" ∧
  get_room_by_session gm_waiting "sb" = get_room gm_waiting "r1" ∧
  is_Some (get_room gm_waiting "r1").
Proof.
  destruct (create_room_then_lookup "r1" alice bob init "sa")
    as (Hg & Ha & _); [done|by left|].
  destruct (create_room_then_lookup "r1" alice bob init "sb")
    as (_ & Hb & _); [done|by right|].
  unfold gm_waiting. rewrite Ha, Hb, Hg. by eauto.
Defined.

(** X11. In every reachable state a session resolves only to a room that is
    stored under its own id and has a player with that session. *)
Theorem session_lookup_sound settings gm s room :
  reachable settings gm →
  get_room_by_session gm s = Some room →
  get_room gm (GameRoom.id room) = Some room ∧
  GameManager.session_to_room gm !! Some s = Some (GameRoom.id room) ∧
  (Player.session_id (GameRoom.player1 room) = Some s ∨
   Player.session_id (GameRoom.player2 room) = Some s).
Proof.
  intros Hreach Hget. apply reachable_wf in Hreach as (Hids & Hsess & _).
  apply get_room_by_session_Some in Hget as (room_id & Hs & _ & Hroom).
  pose proof (Hids _ _ Hroom) as Hid. rewrite Hid.
  split_and!; try done.
  destruct (Hsess _ _ Hs) as (room' & Hroom' & Hor).
  unfold get_room in Hroom. rewrite Hroom in Hroom'. injection Hroom' as <-.
  destruct Hor as [H|H]; [left|right]; done.
Qed.

Lemma session_lookup_sound_witness :
  ∃ room,
    get_room_by_session gm_rematched "sa" = Some room ∧
    GameRoom.id room = "r2" ∧
    get_room gm_rematched (GameRoom.id room) = Some room ∧
    (Player.session_id (GameRoom.player1 room) = Some "sa" ∨
     Player.session_id (GameRoom.player2 room) = Some "sa").
Proof.
  eexists. split; [reflexivity|]. split; [reflexivity|].
  destruct (session_lookup_sound default_settings gm_rematched "sa" _
              (reachable_gm_rematched default_settings) eq_refl)
    as (H1 & _ & H2).
  split; [exact H1|exact H2].
Defined.

(** ** The callers *)

(** X12. One round of the matchmaking loop on a well-formed queue never raises.
    With fewer than two players waiting it changes nothing; otherwise it
    takes the two front players out of the queue and creates a WAITING room
    for them, found under its id and under each of their sessions. *)
Theorem process_queue_match_pairs new_id queue gm :
  queue_wf queue →
  new_id ≠ "" →
  (length queue < 2 →
   process_queue_match new_id queue gm = Ok (queue, gm, None)) ∧
  (∀ a b rest,
     queue = a :: b :: rest →
     ∃ gm',
       let room :=
         fresh_room new_id (QueuePlayer.player a) (QueuePlayer.player b) in
       process_queue_match new_id queue gm = Ok (rest, gm', Some room) ∧
       get_room gm' new_id = Some room ∧
       get_room_by_session gm' (QueuePlayer.session_id a) = Some room ∧
       get_room_by_session gm' (QueuePlayer.session_id b) = Some room ∧
       (QueuePlayer.session_id a ∉ queued_sessions rest) ∧
       (QueuePlayer.session_id b ∉ queued_sessions rest) ∧
       queue_wf rest).
Proof.
  intros Hwf Hid. split.
  - intros Hlen. unfold process_queue_match.
    pose proof (find_match_head queue) as H.
    destruct queue as [|a [|b rest]]; simpl in Hlen; try lia;
      by rewrite H.
  - intros a b rest ->. unfold process_queue_match.
    pose proof (find_match_head (a :: b :: rest)) as H. simpl in H.
    rewrite H. simpl.
    destruct Hwf as [Hnd Hall]. unfold queued_sessions in Hnd.
    rewrite !fmap_cons in Hnd.
    apply NoDup_cons in Hnd as [Ha Hnd]. apply NoDup_cons in Hnd as [Hb Hnd].
    apply Forall_cons in Hall as [[Hna Hsa] Hall].
    apply Forall_cons in Hall as [[Hnb Hsb] Hall].
    eexists. split; [reflexivity|].
    destruct (create_room_lookup new_id (QueuePlayer.player a)
                (QueuePlayer.player b) gm (QueuePlayer.session_id a) Hid)
      as (Hg & Hla); [by left|].
    destruct (create_room_lookup new_id (QueuePlayer.player a)
                (QueuePlayer.player b) gm (QueuePlayer.session_id b) Hid)
      as (_ & Hlb); [by right|].
    split_and!; try done.
    intros Hin. apply Ha. by apply list_elem_of_further.
Qed.

Lemma process_queue_match_pairs_witness :
  ∃ gm',
    let room := fresh_room "r1" alice bob in
    process_queue_match "r1"
      [entry 1 alice "sa"; entry 2 bob "sb"; entry 3 carol "sc"] init
      = Ok ([entry 3 carol "sc"], gm', Some room) ∧
    get_room gm' "r1" = Some room ∧
    get_room_by_session gm' "sa" = Some room ∧
    get_room_by_session gm' "sb" = Some room ∧
    ("sa" ∉ queued_sessions [entry 3 carol "sc"]) ∧
    ("sb" ∉ queued_sessions [entry 3 carol "sc"]) ∧
    queue_wf [entry 3 carol "sc"].
Proof.
  assert (Hwf : queue_wf
            [entry 1 alice "sa"; entry 2 bob "sb"; entry 3 carol "sc"]).
  { change (queue_wf
      (add_player 3 carol (add_player 2 bob (add_player 1 alice [])))).
    apply queue_wf_add, queue_wf_add, queue_wf_add, queue_wf_nil. }
  apply (proj2 (process_queue_match_pairs "r1" _ init Hwf ltac:(done))
           (entry 1 alice "sa") (entry 2 bob "sb") [entry 3 carol "sc"]
           eq_refl).
Defined.

Section Disconnect.
Variable settings : Settings.t.

(** What the disconnect handler leaves in the room, by cases on the rope. *)
Lemma finished_inside now room :
  (- Settings.win_threshold settings < GameRoom.rope_position room)%R →
  (GameRoom.rope_position room < Settings.win_threshold settings)%R →
  finished settings now room
    = set_end_time (Some now) (set_status FINISHED room).
Proof.
  intros Hlo Hhi. unfold finished, determine_winner. simpl.
  destruct (Rle_dec _ _); [lra|]. destruct (Rge_dec _ _); [lra|done].
Qed.

(** X13. A disconnect from an ACTIVE room whose rope is strictly between the two
    thresholds ends the game at once and records the other player as the
    winner: player 2 if the session is player 1's, player 1 otherwise. *)
Theorem forfeit_winner now room_id session_id gm room :
  get_room gm room_id = Some room →
  GameRoom.status room = ACTIVE →
  (- Settings.win_threshold settings < GameRoom.rope_position room)%R →
  (GameRoom.rope_position room < Settings.win_threshold settings)%R →
  ∃ room',
    get_room (handle_player_disconnect settings now room_id session_id gm)
      room_id = Some room' ∧
    GameRoom.status room' = FINISHED ∧
    GameRoom.end_time room' = Some now ∧
    GameRoom.rope_position room' = GameRoom.rope_position room ∧
    (Player.session_id (GameRoom.player1 room) = Some session_id →
     GameRoom.winner_id room' = Some (Player.id (GameRoom.player2 room))) ∧
    (Player.session_id (GameRoom.player1 room) ≠ Some session_id →
     GameRoom.winner_id room' = Some (Player.id (GameRoom.player1 room))).
Proof.
  intros Hroom Hst Hlo Hhi.
  rewrite (handle_player_disconnect_room _ _ _ _ _ _ Hroom).
  eexists. split; [unfold get_room; simpl; apply lookup_insert_eq|].
  assert (Hrope : GameRoom.rope_position (forfeit session_id room)
                  = GameRoom.rope_position room).
  { by destruct (forfeit_cases session_id room)
      as [(_ & [-> | ->])|(_ & ->)]. }
  rewrite finished_inside by by rewrite Hrope.
  simpl. split_and!; try done.
  - intros Hs. unfold forfeit. rewrite decide_True by done. simpl.
    by rewrite decide_True.
  - intros Hs. unfold forfeit. rewrite decide_True by done. simpl.
    by rewrite decide_False.
Qed.

(** X14. A disconnect during the countdown, while the room is still WAITING,
    cancels the game: the room is FINISHED without start time or winner, and
    the [start_game] that the matchmaking loop issues afterwards changes
    nothing. *)
Theorem disconnect_during_countdown now later room_id session_id gm room :
  reachable settings gm →
  (0 < Settings.win_threshold settings)%R →
  get_room gm room_id = Some room →
  GameRoom.status room = WAITING →
  let gm' := handle_player_disconnect settings now room_id session_id gm in
  start_game later room_id gm' = gm' ∧
  ∃ room',
    get_room gm' room_id = Some room' ∧
    GameRoom.status room' = FINISHED ∧
    GameRoom.start_time room' = None ∧
    GameRoom.winner_id room' = None.
Proof.
  intros Hreach HT Hroom Hst gm'.
  pose proof (reachable_room_inv settings lifecycle_wf gm room_id room
                fresh_room_lifecycle (room_step_lifecycle settings)
                Hreach Hroom) as Hwf.
  unfold lifecycle_wf in Hwf. rewrite Hst in Hwf.
  destruct Hwf as (Hstart & _ & Hwin & _ & Hrope).
  assert (Hf : forfeit session_id room = room).
  { unfold forfeit. rewrite decide_False; [done|]. by rewrite Hst. }
  assert (Hget : get_room gm' room_id
                 = Some (set_end_time (Some now) (set_status FINISHED room))).
  { unfold gm'. rewrite (handle_player_disconnect_room _ _ _ _ _ _ Hroom).
    rewrite Hf, finished_inside by (rewrite Hrope; lra).
    unfold get_room. simpl. apply lookup_insert_eq. }
  split; [by apply (start_game_skip _ _ _ _ Hget)|].
  eexists. split; [exact Hget|]. done.
Qed.

(** X15. [main.handle_disconnect] in a reachable state: the session leaves the
    queue, the session index is untouched, and the room the session resolves
    to, if any, is FINISHED with the same players; without such a room the
    registry is unchanged. *)
Theorem handle_disconnect_effect now session_id queue gm :
  reachable settings gm →
  let queue' := (handle_disconnect settings now session_id queue gm).1 in
  let gm' := (handle_disconnect settings now session_id queue gm).2 in
  (session_id ∉ queued_sessions queue') ∧
  GameManager.session_to_room gm' = GameManager.session_to_room gm ∧
  match get_room_by_session gm session_id with
  | Some room =>
      ∃ room',
        get_room gm' (GameRoom.id room) = Some room' ∧
        GameRoom.status room' = FINISHED ∧
        GameRoom.player1 room' = GameRoom.player1 room ∧
        GameRoom.player2 room' = GameRoom.player2 room
  | None => gm' = gm
  end.
Proof.
  intros Hreach queue' gm'.
  assert (Hq : session_id ∉ queued_sessions queue').
  { unfold queue', handle_disconnect.
    assert (H : session_id ∉
                queued_sessions (remove_player session_id queue)).
    { rewrite remove_player_sessions. intros Hin.
      apply list_elem_of_filter in Hin as [Hne _]. by apply Hne. }
    by destruct (get_room_by_session gm session_id). }
  split; [done|]. unfold gm', handle_disconnect.
  destruct (get_room_by_session gm session_id) as [room|] eqn:Hget;
    simpl; [|done].
  apply reachable_wf in Hreach as (Hids & _ & _).
  apply get_room_by_session_Some in Hget as (room_id & _ & _ & Hroom).
  rewrite (Hids _ _ Hroom).
  rewrite (handle_player_disconnect_room _ _ _ _ _ _ Hroom).
  split; [done|]. eexists.
  split; [unfold get_room; simpl; apply lookup_insert_eq|].
  destruct (finished_stable settings now (forfeit session_id room)) as [-> _].
  unfold finished.
  destruct (determine_winner_cases settings
              (set_end_time (Some now)
                 (set_status FINISHED (forfeit session_id room))))
    as [-> | [-> | ->]]; simpl;
    by destruct (forfeit_cases session_id room)
      as [(_ & [-> | ->])|(_ & ->)].
Qed.
End Disconnect.

Lemma forfeit_winner_witness :
  ∃ room',
    get_room (handle_player_disconnect default_settings 7 "r1" "sb" gm_active)
      "r1" = Some room' ∧
    GameRoom.status room' = FINISHED ∧
    GameRoom.winner_id room' = Some (Player.id alice).
Proof.
  destruct (forfeit_winner default_settings 7 "r1" "sb" gm_active _ eq_refl
              eq_refl) as (room' & Hget & Hst & _ & _ & _ & Hw).
  - simpl. lra.
  - simpl. lra.
  - exists room'. split; [exact Hget|]. split; [exact Hst|].
    apply Hw. discriminate.
Defined.

Lemma disconnect_during_countdown_witness :
  let gm' := handle_player_disconnect default_settings 3 "r1" "sa" gm_waiting in
  start_game 5 "r1" gm' = gm' ∧
  ∃ room',
    get_room gm' "r1" = Some room' ∧
    GameRoom.status room' = FINISHED ∧
    GameRoom.start_time room' = None ∧
    GameRoom.winner_id room' = None.
Proof.
  apply (disconnect_during_countdown default_settings 3 5 "r1" "sa"
           gm_waiting (fresh_room "r1" alice bob)
           (reachable_gm_waiting default_settings)).
  - simpl. lra.
  - reflexivity.
  - reflexivity.
Defined.

Lemma handle_disconnect_effect_witness :
  let result :=
    handle_disconnect default_settings 7 "sa" [entry 1 alice "sa"] gm_active in
  ("sa" ∉ queued_sessions result.1) ∧
  GameManager.session_to_room result.2 = GameManager.session_to_room gm_active.
Proof.
  destruct (handle_disconnect_effect default_settings 7 "sa"
              [entry 1 alice "sa"] gm_active
              (reachable_gm_active default_settings)) as (H1 & H2 & _).
  split; [exact H1|exact H2].
Defined.

(** ** The tick *)

Lemma size_list_to_set_le (l : list string) :
  size (list_to_set l : gset string) ≤ length l.
Proof.
  induction l as [|x l IH]; [by rewrite list_to_set_nil, size_empty|].
  rewrite list_to_set_cons, size_union_alt, size_singleton. simpl.
  assert (size (list_to_set l ∖ {[x]} : gset string)
          ≤ size (list_to_set l : gset string)).
  { apply subseteq_size. intros y Hy.
    by apply elem_of_difference in Hy as [? _]. }
  lia.
Qed.

Lemma unique_pullers_le pulls : unique_pullers pulls ≤ length pulls.
Proof.
  unfold unique_pullers.
  etrans; [apply size_list_to_set_le|]. by rewrite length_fmap.
Qed.

Lemma unique_pullers_side_le now room player :
  unique_pullers (pulls_of player (recent_pulls now room))
    ≤ length (GameRoom.pull_history room).
Proof.
  etrans; [apply unique_pullers_le|].
  unfold pulls_of, recent_pulls.
  etrans; [apply length_filter|apply length_filter].
Qed.

Lemma engagement_le_unique unique player :
  (engagement unique player <= INR unique)%R.
Proof.
  unfold engagement. pose proof (viewers_pos player) as Hv.
  pose proof (pos_INR unique) as Hu.
  apply Rle_trans with (INR unique / 1)%R; [|lra].
  unfold Rdiv. apply Rmult_le_compat_l; [done|].
  apply Rinv_le_contravar; lra.
Qed.

Lemma engagement_le_1 unique player :
  (Z.of_nat unique ≤ Player.viewer_count player)%Z →
  (engagement unique player <= 1)%R.
Proof.
  intros Hle. unfold engagement. pose proof (viewers_pos player) as Hv.
  assert (INR unique <= IZR (Z.max (Player.viewer_count player) 1))%R.
  { rewrite INR_IZR_INZ. apply IZR_le. lia. }
  apply Rle_trans with
    (IZR (Z.max (Player.viewer_count player) 1)
     / IZR (Z.max (Player.viewer_count player) 1))%R.
  - unfold Rdiv. apply Rmult_le_compat_r; [|done].
    left. apply Rinv_0_lt_compat. lra.
  - right. field. lra.
Qed.

Lemma pull_power_nonneg unique player base :
  (0 <= base)%R → (0 <= pull_power (engagement unique player) base unique)%R.
Proof.
  intros Hb. unfold pull_power.
  apply Rmult_le_pos; [apply Rmult_le_pos; [apply engagement_nonneg|done]|].
  apply log10_nonneg. rewrite plus_INR. simpl. pose proof (pos_INR unique). lra.
Qed.

(** X16. The stats [calculate_engagement_stats] writes for player 1 (and, in the
    same way, for player 2): the number of unique pullers is at most the
    length of the history; the engagement rate lies between 0 and that
    number, and is at most 1 as soon as the unique pullers do not outnumber
    the viewers; the pull power is not negative for a non-negative base
    strength. *)
Theorem engagement_stats_ranges settings now room :
  let room' := calculate_engagement_stats settings now room in
  ∃ u1 u2 e1 e2 p1 p2,
    GameRoom.player1_stats room' !! "unique_pullers" = Some (INR u1) ∧
    GameRoom.player2_stats room' !! "unique_pullers" = Some (INR u2) ∧
    GameRoom.player1_stats room' !! "engagement_rate" = Some e1 ∧
    GameRoom.player2_stats room' !! "engagement_rate" = Some e2 ∧
    GameRoom.player1_stats room' !! "pull_power" = Some p1 ∧
    GameRoom.player2_stats room' !! "pull_power" = Some p2 ∧
    u1 ≤ length (GameRoom.pull_history room) ∧
    u2 ≤ length (GameRoom.pull_history room) ∧
    (0 <= e1 <= INR u1)%R ∧ (0 <= e2 <= INR u2)%R ∧
    ((Z.of_nat u1 ≤ Player.viewer_count (GameRoom.player1 room))%Z →
     (e1 <= 1)%R) ∧
    ((Z.of_nat u2 ≤ Player.viewer_count (GameRoom.player2 room))%Z →
     (e2 <= 1)%R) ∧
    ((0 <= Settings.base_pull_strength settings)%R →
     (0 <= p1)%R ∧ (0 <= p2)%R).
Proof.
  simpl.
  rewrite !lookup_insert_eq.
  rewrite !(lookup_insert_ne _ "pull_power" "engagement_rate") by done.
  rewrite !lookup_insert_eq.
  rewrite !(lookup_insert_ne _ "pull_power" "unique_pullers") by done.
  rewrite !(lookup_insert_ne _ "engagement_rate" "unique_pullers") by done.
  rewrite !lookup_insert_eq.
  eexists _, _, _, _, _, _.
  do 6 (split; [reflexivity|]).
  split_and!.
  - apply unique_pullers_side_le.
  - apply unique_pullers_side_le.
  - apply engagement_nonneg.
  - apply engagement_le_unique.
  - apply engagement_nonneg.
  - apply engagement_le_unique.
  - apply engagement_le_1.
  - apply engagement_le_1.
  - intros Hb. split; by apply pull_power_nonneg.
Qed.

Lemma engagement_stats_ranges_witness :
  ∃ e1 p1,
    GameRoom.player1_stats
      (calculate_engagement_stats default_settings (10 * 1000000) room_pulled)
      !! "engagement_rate" = Some e1 ∧
    GameRoom.player1_stats
      (calculate_engagement_stats default_settings (10 * 1000000) room_pulled)
      !! "pull_power" = Some p1 ∧
    (0 <= e1)%R ∧ (0 <= p1)%R.
Proof.
  destruct (engagement_stats_ranges default_settings (10 * 1000000)
              room_pulled)
    as (u1 & u2 & e1 & e2 & p1 & p2 & _ & _ & He & _ & Hp & _ & _ & _ &
        [He1 _] & _ & _ & _ & Hb).
  exists e1, p1. split; [exact He|]. split; [exact Hp|].
  split; [exact He1|]. apply Hb. simpl. lra.
Defined.

Section Tick.
Variable settings : Settings.t.

(** X17. A tick never moves the rope away from the side with the larger pull
    power: when player 1's power is at least player 2's the rope does not go
    down, when it is at most player 2's the rope does not go up, and with
    equal powers the rope stays where it is.  These comparisons are the ones
    that rounding keeps; how far the rope moves is not stated. *)
Theorem tick_never_moves_against_stronger_side now room :
  GameRoom.status room = ACTIVE →
  in_bounds settings (GameRoom.rope_position room) →
  ∃ room' tasks p1 p2,
    update_rope_position settings now room = Ok (room', tasks) ∧
    GameRoom.player1_stats room' !! "pull_power" = Some p1 ∧
    GameRoom.player2_stats room' !! "pull_power" = Some p2 ∧
    let rope := GameRoom.rope_position room in
    let rope' := GameRoom.rope_position room' in
    ((p2 <= p1 → rope <= rope') ∧
     (p1 <= p2 → rope' <= rope) ∧
     (p1 = p2 → rope' = rope))%R.
Proof.
  intros Hst Hb. rewrite update_rope_position_eq by done.
  eexists _, _, _, _. split; [reflexivity|]. simpl.
  rewrite !lookup_insert_eq. split; [reflexivity|]. split; [reflexivity|].
  set (p1 := pull_power _ _ _). set (p2 := pull_power _ _ _).
  unfold in_bounds, py_max, py_min in *.
  repeat destruct (Rlt_dec _ _); split_and!; intros; lra.
Qed.

(** X18. When a tick brings the rope to a threshold it schedules [end_game],
    and [end_game], run on the room as the tick left it, records a winner:
    player 1 at [+win_threshold], player 2 at [-win_threshold].  Otherwise
    nothing is scheduled and the rope is strictly between the thresholds. *)
Theorem threshold_win_has_winner now later room room' tasks :
  (0 < Settings.win_threshold settings)%R →
  GameRoom.status room = ACTIVE →
  update_rope_position settings now room = Ok (room', tasks) →
  (tasks = [EndGameTask (GameRoom.id room)] ∧
   ((GameRoom.rope_position room' = Settings.win_threshold settings ∧
     GameRoom.winner_id (finished settings later room')
       = Some (Player.id (GameRoom.player1 room))) ∨
    (GameRoom.rope_position room' = (- Settings.win_threshold settings)%R ∧
     GameRoom.winner_id (finished settings later room')
       = Some (Player.id (GameRoom.player2 room))))) ∨
  (tasks = [] ∧
   (- Settings.win_threshold settings < GameRoom.rope_position room'
    < Settings.win_threshold settings)%R ∧
   GameRoom.winner_id (finished settings later room')
     = GameRoom.winner_id room).
Proof.
  intros HT Hst. rewrite update_rope_position_eq by done.
  cbv zeta. set (rope := py_max _ _). intros [= <- <-].
  assert (Hb : in_bounds settings rope).
  { apply clamp_in_bounds. lra. }
  unfold in_bounds in Hb. unfold finished, determine_winner. simpl.
  destruct (Rge_dec (Rabs rope) _) as [Habs|Habs].
  - left. split; [done|].
    destruct (Rle_dec rope _) as [Hle|Hle].
    + right. split; [lra|done].
    + left. destruct (Rge_dec rope _) as [Hge|Hge]; [split; [lra|done]|].
      exfalso. unfold Rabs in Habs. destruct (Rcase_abs rope); lra.
  - right. split; [done|].
    assert (Hin : (- Settings.win_threshold settings < rope
                   < Settings.win_threshold settings)%R).
    { unfold Rabs in Habs. destruct (Rcase_abs rope); lra. }
    split; [done|].
    destruct (Rle_dec rope _); [lra|]. destruct (Rge_dec rope _); [lra|done].
Qed.

Lemma list_to_set_repeat (l : list string) (x : string) :
  x ∈ l → (list_to_set (l ++ [x]) : gset string) = list_to_set l.
Proof.
  intros Hx. rewrite list_to_set_app_L. simpl.
  apply set_eq. intros y.
  rewrite elem_of_union, elem_of_union, elem_of_singleton,
    elem_of_list_to_set, elem_of_empty.
  split; [intros [?|[->|[]]]; done|by left].
Qed.

Lemma unique_pullers_repeat now room player pull :
  (PullData.player_id pull = Player.id player →
   contributes now room player (PullData.username pull)) →
  unique_pullers
    (pulls_of player
       (recent_pulls now
          (set_pull_history (GameRoom.pull_history room ++ [pull]) room)))
  = unique_pullers (pulls_of player (recent_pulls now room)).
Proof.
  intros Hrep. unfold unique_pullers, pulls_of, recent_pulls. simpl.
  rewrite !filter_app, fmap_app.
  rewrite (filter_cons _ pull), filter_nil.
  destruct (decide (now - PullData.timestamp pull < window)%Z) as [Hw|Hw];
    [|by rewrite filter_nil, app_nil_r].
  rewrite filter_cons, filter_nil.
  destruct (decide (PullData.player_id pull = Player.id player)) as [Hp|Hp];
    [|by rewrite app_nil_r].
  simpl. f_equal. apply list_to_set_repeat.
  destruct (Hrep Hp) as (p0 & Hin & Hrecent & Hside & Hname).
  apply list_elem_of_fmap. exists p0. split; [done|].
  apply list_elem_of_filter. split; [done|].
  by apply list_elem_of_filter.
Qed.

(** X19. Pulling again adds no power: if the viewer of a new pull event already
    has an event for the same side inside the window, the stats computed
    with the new event in the history are those computed without it. *)
Theorem repeated_pull_adds_no_power now room pull :
  (PullData.player_id pull = Player.id (GameRoom.player1 room) →
   contributes now room (GameRoom.player1 room) (PullData.username pull)) →
  (PullData.player_id pull = Player.id (GameRoom.player2 room) →
   contributes now room (GameRoom.player2 room) (PullData.username pull)) →
  calculate_engagement_stats settings now
    (set_pull_history (GameRoom.pull_history room ++ [pull]) room)
  = set_pull_history (GameRoom.pull_history room ++ [pull])
      (calculate_engagement_stats settings now room).
Proof.
  intros H1 H2. unfold calculate_engagement_stats.
  pose proof (unique_pullers_repeat now room (GameRoom.player1 room) pull H1)
    as Hu1.
  pose proof (unique_pullers_repeat now room (GameRoom.player2 room) pull H2)
    as Hu2.
  simpl in *. rewrite Hu1, Hu2. reflexivity.
Qed.
End Tick.

Lemma log10_2_lower : (3 / 10 < log10 2)%R.
Proof.
  replace (3 / 10)%R with (INR 3 / INR 10)%R
    by (rewrite !INR_IZR_INZ; simpl; reflexivity).
  apply log10_lower; [lra|lia|].
  rewrite !pow_IZR. apply IZR_lt. reflexivity.
Qed.

(** Ten seconds into the game Alice has three unique pullers among ten
    viewers, Bob one and no viewers: Bob's side is the stronger one. *)
Lemma room_pulled_tick_powers room' tasks p1 p2 :
  update_rope_position default_settings (10 * 1000000) room_pulled
    = Ok (room', tasks) →
  GameRoom.player1_stats room' !! "pull_power" = Some p1 →
  GameRoom.player2_stats room' !! "pull_power" = Some p2 →
  (p1 < 2 / 10 ∧ 3 / 10 < p2)%R.
Proof.
  rewrite update_rope_position_eq by reflexivity.
  cbv zeta. intros [= <- _].
  unfold calculate_engagement_stats.
  cbn [GameRoom.player1_stats GameRoom.player2_stats set_rope_position
       set_player1_stats set_player2_stats].
  rewrite !lookup_insert_eq.
  assert (Hu1 : unique_pullers
    (pulls_of (GameRoom.player1 room_pulled)
       (recent_pulls (10 * 1000000) room_pulled)) = 3) by reflexivity.
  assert (Hu2 : unique_pullers
    (pulls_of (GameRoom.player2 room_pulled)
       (recent_pulls (10 * 1000000) room_pulled)) = 1) by reflexivity.
  rewrite Hu1, Hu2. intros [= <-] [= <-].
  unfold pull_power, engagement. simpl.
  change (IZR (10 `max` 1)) with 10%R. change (IZR (0 `max` 1)) with 1%R.
  replace (1 + 1 + 1 + 1)%R with 4%R by lra.
  replace (1 + 1)%R with 2%R by lra.
  pose proof log10_4_bounds. pose proof log10_2_lower. lra.
Qed.

Lemma tick_never_moves_against_stronger_side_witness :
  ∃ room' tasks,
    update_rope_position default_settings (10 * 1000000) room_pulled
      = Ok (room', tasks) ∧
    (GameRoom.rope_position room' <= GameRoom.rope_position room_pulled)%R.
Proof.
  destruct (tick_never_moves_against_stronger_side default_settings
              (10 * 1000000) room_pulled eq_refl)
    as (room' & tasks & p1 & p2 & Hupd & H1 & H2 & _ & Hdown & _).
  - unfold in_bounds. simpl. lra.
  - exists room', tasks. split; [exact Hupd|]. apply Hdown.
    destruct (room_pulled_tick_powers _ _ _ _ Hupd H1 H2). lra.
Defined.

(** Ten seconds into the game Bob's one viewer out-pulls Alice's three out
    of ten, and the tick takes the rope over Bob's end, where it is
    clamped. *)
Lemma room_last_inch_tick :
  update_rope_position default_settings (10 * 1000000) room_last_inch =
    Ok (set_rope_position (- 100)
          (calculate_engagement_stats default_settings (10 * 1000000)
             room_last_inch), [EndGameTask "r1"]).
Proof.
  rewrite update_rope_position_eq by reflexivity.
  assert (Hu1 : unique_pullers
    (pulls_of (GameRoom.player1 room_last_inch)
       (recent_pulls (10 * 1000000) room_last_inch)) = 3) by reflexivity.
  assert (Hu2 : unique_pullers
    (pulls_of (GameRoom.player2 room_last_inch)
       (recent_pulls (10 * 1000000) room_last_inch)) = 1) by reflexivity.
  cbv zeta. rewrite Hu1, Hu2.
  assert (Hp1 : (pull_power (engagement 3 (GameRoom.player1 room_last_inch))
                   (Settings.base_pull_strength default_settings) 3
                 < 2 / 10)%R).
  { unfold pull_power, engagement. simpl.
    change (IZR (10 `max` 1)) with 10%R.
    replace (1 + 1 + 1 + 1)%R with 4%R by lra.
    pose proof log10_4_bounds. lra. }
  assert (Hp2 : (3 / 10 <
                 pull_power (engagement 1 (GameRoom.player2 room_last_inch))
                   (Settings.base_pull_strength default_settings) 1)%R).
  { unfold pull_power, engagement. simpl.
    change (IZR (0 `max` 1)) with 1%R.
    replace (1 + 1)%R with 2%R by lra.
    pose proof log10_2_lower. lra. }
  assert (Hrope : py_max (- Settings.win_threshold default_settings)
            (py_min (Settings.win_threshold default_settings)
               (GameRoom.rope_position room_last_inch +
                (pull_power (engagement 3 (GameRoom.player1 room_last_inch))
                   (Settings.base_pull_strength default_settings) 3 -
                 pull_power (engagement 1 (GameRoom.player2 room_last_inch))
                   (Settings.base_pull_strength default_settings) 1)
                * (5 / 10)))
          = (- 100)%R).
  { unfold py_max, py_min. simpl in *.
    repeat destruct (Rlt_dec _ _); lra. }
  rewrite Hrope. destruct (Rge_dec _ _) as [_|H]; [done|].
  exfalso. apply H. simpl. unfold Rabs. destruct (Rcase_abs _); lra.
Qed.

Lemma threshold_win_has_winner_witness :
  ∃ room',
    update_rope_position default_settings (10 * 1000000) room_last_inch
      = Ok (room', [EndGameTask "r1"]) ∧
    GameRoom.rope_position room' = (- 100)%R ∧
    GameRoom.winner_id (finished default_settings (11 * 1000000) room')
      = Some (Player.id bob).
Proof.
  eexists. split; [apply room_last_inch_tick|].
  destruct (threshold_win_has_winner default_settings (10 * 1000000)
              (11 * 1000000) room_last_inch _ _ ltac:(simpl; lra) eq_refl
              room_last_inch_tick) as [[_ [[Hr _]|[Hr Hw]]]|[Ht _]].
  - exfalso. simpl in Hr. lra.
  - split; [reflexivity|exact Hw].
  - discriminate Ht.
Defined.

Lemma repeated_pull_adds_no_power_witness :
  let history :=
    GameRoom.pull_history room_pulled ++ [pull_at 6 "v1" "p1"] in
  calculate_engagement_stats default_settings (10 * 1000000)
    (set_pull_history history room_pulled)
  = set_pull_history history
      (calculate_engagement_stats default_settings (10 * 1000000) room_pulled).
Proof.
  apply (repeated_pull_adds_no_power default_settings (10 * 1000000)
           room_pulled (pull_at 6 "v1" "p1")).
  - intros _. apply room_pulled_contributors. apply list_elem_of_here.
  - intros H. discriminate H.
Defined.

(** ** The game state sent to the clients *)

Lemma py_int_INR n : py_int (INR n) = Z.of_nat n.
Proof.
  unfold py_int. destruct (Rle_dec 0 (INR n)) as [_|H].
  - apply Int_part_INR.
  - exfalso. apply H. apply pos_INR.
Qed.

Lemma py_int_0 : py_int 0 = 0%Z.
Proof. apply (py_int_INR 0). Qed.

(** Whole seconds left of [n] microseconds. *)
Lemma py_int_micro (n : Z) :
  py_int (py_max 0 (IZR n / 1000000)) = Z.max 0 (n / 1000000).
Proof.
  unfold py_max. destruct (Rlt_dec 0 (IZR n / 1000000)) as [Hpos|Hneg].
  - assert (Hn : (0 < n)%Z).
    { apply lt_IZR. lra. }
    assert (Hz : (0 ≤ n / 1000000)%Z) by (apply Z.div_pos; lia).
    rewrite Z.max_r by done.
    unfold py_int. destruct (Rle_dec 0 _) as [_|H]; [|lra].
    symmetry. apply Int_part_spec.
    pose proof (Z.mul_div_le n 1000000 ltac:(lia)) as Hlo.
    pose proof (Z.mul_succ_div_gt n 1000000 ltac:(lia)) as Hhi.
    apply IZR_le in Hlo. apply IZR_lt in Hhi.
    rewrite mult_IZR in Hlo. rewrite mult_IZR, succ_IZR in Hhi.
    split; lra.
  - assert (Hn : (n ≤ 0)%Z).
    { apply le_IZR. lra. }
    rewrite py_int_0. rewrite Z.max_l; [done|].
    apply Z.div_le_upper_bound; lia.
Qed.

(** X20. [get_game_state] of a stored room mirrors its status and rope position
    and reports the whole seconds left: 0 unless the room is ACTIVE with a
    start time, else the game duration minus the elapsed time, rounded down
    and never negative; it is at most the game duration when the clock has
    not gone back past the start. *)
Theorem game_state_time_remaining settings now gm room_id room :
  get_room gm room_id = Some room →
  ∃ state,
    get_game_state settings now gm room_id = Some state ∧
    GameState.room_id state = room_id ∧
    GameState.status state = GameRoom.status room ∧
    GameState.rope_position state = GameRoom.rope_position room ∧
    (GameRoom.status room ≠ ACTIVE ∨ GameRoom.start_time room = None →
     GameState.time_remaining state = 0%Z) ∧
    (∀ start,
       GameRoom.status room = ACTIVE →
       GameRoom.start_time room = Some start →
       GameState.time_remaining state =
         Z.max 0 ((Settings.game_duration settings * 1000000 - (now - start))
                  / 1000000) ∧
       ((start ≤ now)%Z → (0 ≤ Settings.game_duration settings)%Z →
        (GameState.time_remaining state ≤ Settings.game_duration settings)%Z)) ∧
    (0 ≤ GameState.time_remaining state)%Z.
Proof.
  intros Hroom. unfold get_game_state. rewrite Hroom.
  eexists. split; [reflexivity|]. simpl.
  assert (Hformula : ∀ start,
    py_int (py_max 0 (IZR (Settings.game_duration settings)
                      - total_seconds (now - start)))
    = Z.max 0 ((Settings.game_duration settings * 1000000 - (now - start))
               / 1000000)).
  { intros start. rewrite <- py_int_micro. do 2 f_equal.
    unfold total_seconds. rewrite !minus_IZR, mult_IZR. field. }
  split_and!; try done.
  - intros [Hst|Hstart].
    + destruct (GameRoom.start_time room); [|apply py_int_0].
      rewrite decide_False by done. apply py_int_0.
    + rewrite Hstart. apply py_int_0.
  - intros start Hst Hstart. rewrite Hstart, decide_True by done.
    rewrite Hformula. split; [done|]. intros Hle HD.
    apply Z.max_lub; [done|].
    apply Z.div_le_upper_bound; lia.
  - destruct (GameRoom.start_time room) as [start|]; [|by rewrite py_int_0].
    case_decide; [|by rewrite py_int_0].
    rewrite Hformula. lia.
Qed.

Lemma game_state_time_remaining_witness :
  ∃ state,
    get_game_state default_settings 30500000 gm_active "r1" = Some state ∧
    GameState.status state = ACTIVE ∧
    GameState.time_remaining state = 89%Z.
Proof.
  destruct (game_state_time_remaining default_settings 30500000 gm_active
              "r1" _ eq_refl)
    as (state & Hget & _ & Hst & _ & _ & Htime & _).
  exists state. split; [exact Hget|]. split; [exact Hst|].
  destruct (Htime 0%Z eq_refl eq_refl) as [-> _]. reflexivity.
Defined.

(** X21. After a tick of an ACTIVE room, the game state reports as scores the
    numbers of unique pullers of the two sides within the window, and as
    engagements those numbers divided by [max(viewer_count, 1)]. *)
Theorem game_state_scores settings now room_id gm room room' tasks :
  GameRoom.status room = ACTIVE →
  update_rope_position settings now room = Ok (room', tasks) →
  ∃ state,
    get_game_state settings now (put_room room_id room' gm) room_id
      = Some state ∧
    let u1 := unique_pullers
                (pulls_of (GameRoom.player1 room) (recent_pulls now room)) in
    let u2 := unique_pullers
                (pulls_of (GameRoom.player2 room) (recent_pulls now room)) in
    GameState.player1_score state = Z.of_nat u1 ∧
    GameState.player2_score state = Z.of_nat u2 ∧
    GameState.player1_engagement state
      = (INR u1 / IZR (Z.max (Player.viewer_count (GameRoom.player1 room)) 1))%R ∧
    GameState.player2_engagement state
      = (INR u2 / IZR (Z.max (Player.viewer_count (GameRoom.player2 room)) 1))%R ∧
    GameState.rope_position state = GameRoom.rope_position room'.
Proof.
  intros Hst. rewrite update_rope_position_eq by done. intros [= <- _].
  unfold get_game_state, get_room. simpl. rewrite lookup_insert_eq.
  eexists. split; [reflexivity|]. simpl. unfold get_or_0.
  rewrite !(lookup_insert_ne _ "pull_power" "engagement_rate") by done.
  rewrite !lookup_insert_eq.
  rewrite !(lookup_insert_ne _ "pull_power" "unique_pullers") by done.
  rewrite !(lookup_insert_ne _ "engagement_rate" "unique_pullers") by done.
  rewrite !lookup_insert_eq. simpl.
  rewrite !py_int_INR. done.
Qed.

Lemma game_state_scores_witness :
  ∃ state room',
    update_rope_position default_settings (120 * 1000000) room_ahead
      = Ok (room', []) ∧
    get_game_state default_settings (120 * 1000000)
      (put_room "r1" room' gm_active) "r1" = Some state ∧
    GameState.player1_score state = 0%Z ∧
    GameState.rope_position state = 5%R.
Proof.
  destruct (game_state_scores default_settings (120 * 1000000) "r1" gm_active
              room_ahead _ [] eq_refl room_ahead_tick)
    as (state & Hget & Hs1 & _ & _ & _ & Hrope).
  exists state. eexists. split; [exact room_ahead_tick|].
  split; [exact Hget|]. split; [|exact Hrope].
  rewrite Hs1. reflexivity.
Defined.

(** ** The chat cooldown *)

Lemma can_pull_cases now username user_cooldowns :
  (can_pull now username user_cooldowns
     = (true, <[username := now]> user_cooldowns) ∧
   ∀ last, user_cooldowns !! username = Some last →
           (cooldown ≤ now - last)%Z) ∨
  (can_pull now username user_cooldowns = (false, user_cooldowns) ∧
   ∃ last, user_cooldowns !! username = Some last ∧
           (now - last < cooldown)%Z).
Proof.
  unfold can_pull.
  destruct (user_cooldowns !! username) as [last|]; [|by left].
  case_decide; [right; eauto|left]. split; [done|].
  intros ? [= <-]. lia.
Qed.

Lemma let_through_spacing commands user_cooldowns :
  let accepted := let_through commands user_cooldowns in
  (∀ t u last,
     (t, u) ∈ accepted → user_cooldowns !! u = Some last →
     (cooldown ≤ t - last)%Z) ∧
  (∀ i j ti tj u,
     i < j → accepted !! i = Some (ti, u) → accepted !! j = Some (tj, u) →
     (cooldown ≤ tj - ti)%Z).
Proof.
  revert user_cooldowns.
  induction commands as [|[now username] commands IH]; intros cds; simpl.
  { split; [intros ? ? ? H; by apply elem_of_nil in H|by intros [] ? ? ? ?]. }
  destruct (can_pull_cases now username cds) as [[-> Hok]|[-> _]];
    [|apply IH].
  destruct (IH (<[username := now]> cds)) as [IH1 IH2].
  split.
  - intros t u last Hin Hlast.
    apply elem_of_cons in Hin as [[= -> ->]|Hin]; [by apply Hok|].
    destruct (decide (username = u)) as [->|Hne].
    + specialize (IH1 t u now Hin (lookup_insert_eq _ _ _)).
      specialize (Hok last Hlast). unfold cooldown in *. lia.
    + apply (IH1 t u last Hin). by rewrite lookup_insert_ne.
  - intros [|i] [|j] ti tj u Hij Hi Hj; try lia; simpl in *.
    + injection Hi as -> ->.
      apply (IH1 tj u ti); [|apply lookup_insert_eq].
      apply list_elem_of_lookup. eauto.
    + apply (IH2 i j ti tj u); [lia|done..].
Qed.

Lemma let_through_sublist commands user_cooldowns :
  let_through commands user_cooldowns `sublist_of` commands.
Proof.
  revert user_cooldowns.
  induction commands as [|[now username] commands IH]; intros cds; simpl;
    [done|].
  destruct (can_pull now username cds) as [[] cds'].
  - by apply sublist_skip.
  - by apply sublist_cons.
Qed.

(** X22. Of the [!pull] commands of a chat, [can_pull] lets through a sub-sequence
    in which two commands of the same user are always at least half a second
    apart, whatever the commands and the clock; a user's first command is
    always let through, and a refused command does not restart the user's
    cooldown. *)
Theorem cooldown_spacing commands :
  let accepted := let_through commands ∅ in
  accepted `sublist_of` commands ∧
  (∀ i j ti tj u,
     i < j → accepted !! i = Some (ti, u) → accepted !! j = Some (tj, u) →
     (500000 ≤ tj - ti)%Z) ∧
  (∀ now username user_cooldowns,
     user_cooldowns !! username = None →
     can_pull now username user_cooldowns
       = (true, <[username := now]> user_cooldowns)) ∧
  (∀ now username user_cooldowns,
     (can_pull now username user_cooldowns).1 = false →
     (can_pull now username user_cooldowns).2 = user_cooldowns).
Proof.
  split_and!.
  - apply let_through_sublist.
  - apply (let_through_spacing commands ∅).
  - intros now username cds Hnone. unfold can_pull. by rewrite Hnone.
  - intros now username cds.
    by destruct (can_pull_cases now username cds) as [[-> _]|[-> _]].
Qed.

Lemma cooldown_spacing_witness :
  let_through [(0, "v1"); (200000, "v1"); (300000, "v2"); (600000, "v1")]%Z ∅
    = [(0, "v1"); (300000, "v2"); (600000, "v1")]%Z ∧
  (500000 ≤ 600000 - 0)%Z.
Proof.
  split; [reflexivity|].
  apply (proj1 (proj2 (cooldown_spacing
           [(0, "v1"); (200000, "v1"); (300000, "v2"); (600000, "v1")]%Z))
           0 2 0%Z 600000%Z "v1"); [lia|reflexivity..].
Defined.

Lemma run_status_forward_witness :
  ∃ room room',
    get_room gm_waiting "r1" = Some room ∧
    get_room gm_active "r1" = Some room' ∧
    status_rank (GameRoom.status room) ≤ status_rank (GameRoom.status room') ∧
    (GameRoom.status room = FINISHED → GameRoom.status room' = FINISHED).
Proof.
  eexists _, _. split; [reflexivity|]. split; [reflexivity|].
  apply (run_status_forward default_settings [StartGame 0 "r1"]
           gm_waiting gm_active "r1").
  - repeat constructor; intros; discriminate.
  - reflexivity.
  - reflexivity.
  - reflexivity.
Defined.
